(** * Overlay-to-filter-graph compiler and job engine of [backend/main.py]

    A shallow embedding of [render_video_task] and [upload_video]:
    JSON metadata as Python sees it after [json.loads], the overlay loop
    as a fold over an explicit loop state, the job map as a [gmap], the
    file system as the set of paths that exist, and Python exceptions as
    the left summand of a sum type.

    What lies outside the module is taken as a parameter: [json.loads],
    the external encoder behind [subprocess.run], [os.getcwd()] and
    Python's text for a list or a dict.  Paths are POSIX paths and a
    file is identified by its path text; [print] is left out. *)

From Stdlib Require Import ZArith Ascii String.
From stdpp Require Import base gmap strings list pretty.


(** ** Python values and exceptions *)

Module Py.

(** What [json.loads] can return.  A float keeps the text Python prints
    for it, since the code only ever formats overlay numbers. *)
#[warnings="-register-all"]
Inductive json :=
| JNull
| JBool (b : bool)
| JInt (z : Z)
| JFloat (shown : string)
| JStr (s : string)
| JList (l : list json)
| JDict (d : gmap string json).

Inductive exn :=
| KeyError
| TypeError
| AttributeError
| JSONDecodeError
| OSError
| UnicodeDecodeError
| CalledProcessError (returncode : Z).

Definition result (A : Type) : Type := exn + A.

Definition ret {A} (a : A) : result A := inr a.
Definition raise {A} (e : exn) : result A := inl e.
Definition bind {A B} (m : result A) (k : A → result B) : result B :=
  match m with
  | inl e => inl e
  | inr a => k a
  end.

End Py.

Import Py.

Notation "'let!' x ':=' m 'in' k" := (Py.bind m (fun x => k))
  (at level 10, x name, m at level 100, k at level 200).

(** ** Python and [os.path] primitives used by the task *)

Section Primitives.

(** [str()] of a list or a dict (Python's [repr] of the container) is
    left to the caller; the task only ever interpolates it. *)
Variable repr_container : json → string.

(** [o[k]] for a string key [k]. *)
Definition subscript (o : json) (k : string) : result json :=
  match o with
  | JDict d =>
      match d !! k with
      | Some v => ret v
      | None => raise KeyError
      end
  | _ => raise TypeError
  end.

(** [o.get(k, dflt)]: only a dict has the method. *)
Definition get (o : json) (k : string) (dflt : json) : result json :=
  match o with
  | JDict d => ret (default dflt (d !! k))
  | _ => raise AttributeError
  end.

(** The elements a [for] loop visits: the items of a list, the keys of a
    dict, the characters of a string.  (The keys come in the order of
    the map, not in insertion order; the loop body raises on the first
    of them whatever it is.) *)
Definition iter (o : json) : result (list json) :=
  match o with
  | JList l => ret l
  | JDict d => ret (JStr <$> (map_to_list d).*1)
  | JStr s => ret ((fun c => JStr (String c "")) <$> list_ascii_of_string s)
  | _ => raise TypeError
  end.

(** [str(o)], as an f-string field renders it. *)
Definition str (o : json) : string :=
  match o with
  | JNull => "None"
  | JBool true => "True"
  | JBool false => "False"
  | JInt z => pretty z
  | JFloat shown => shown
  | JStr s => s
  | JList _ | JDict _ => repr_container o
  end.

(** [o == lit] for a string literal [lit]. *)
Definition eq_str (o : json) (lit : string) : bool :=
  match o with
  | JStr s => String.eqb s lit
  | _ => false
  end.

End Primitives.

(** [s.replace("'", "\\'")]: every single quote gets a backslash in front.
    A quote is one byte in UTF-8 and occurs in no longer sequence, so the
    replacement on bytes is the one on code points. *)
Fixpoint escape_quotes (s : string) : string :=
  match s with
  | EmptyString => EmptyString
  | String c rest =>
      if Ascii.eqb c "'" then String "\" (String "'" (escape_quotes rest))
      else String c (escape_quotes rest)
  end.

(** [o.replace("'", "\\'")]: only a string has the method. *)
Definition replace_quote (o : json) : result string :=
  match o with
  | JStr s => ret (escape_quotes s)
  | _ => raise AttributeError
  end.

(** [s.startswith("/")] and [s.endswith("/")]. *)
Definition starts_with_sep (s : string) : bool :=
  match s with
  | String c _ => Ascii.eqb c "/"
  | EmptyString => false
  end.

Fixpoint ends_with_sep (s : string) : bool :=
  match s with
  | EmptyString => false
  | String c EmptyString => Ascii.eqb c "/"
  | String _ rest => ends_with_sep rest
  end.

(** [os.path.join(a, b)] of [posixpath]. *)
Definition path_join (a b : string) : string :=
  if starts_with_sep b then b
  else if (String.eqb a "" || ends_with_sep a)%bool then a +:+ b
  else a +:+ "/" +:+ b.

Definition path_join3 (a b c : string) : string := path_join (path_join a b) c.

(** ** Configuration and the job map *)

Definition STORAGE_DIR : string := "rendered_videos".

Inductive job_state := PENDING | PROCESSING | COMPLETE | FAILED.

Module Job.
Record t := Make {
  status : job_state;
  video_path : string;
  metadata : string;
  result_path : option string
}.
End Job.

(** How [subprocess.run(..., capture_output=True, text=True)] ended: the
    process ran, its captured output was decoded and it exited with a
    code; or it could not be started at all; or it ran and decoding what
    it wrote raised, whatever its exit code. *)
Inductive proc_outcome :=
| Exited (returncode : Z)
| NotStarted
| OutputNotDecoded.

#[global] Instance proc_outcome_eq_dec : EqDecision proc_outcome.
Proof. solve_decision. Defined.

#[global] Instance job_state_eq_dec : EqDecision job_state.
Proof. solve_decision. Defined.

(** The arguments of a task handed to [background_tasks.add_task]. *)
Record task_args := TaskArgs {
  task_job_id : string;
  task_video_path : string;
  task_metadata : string
}.

(** The mutable world of the module: the global [job_status] dict, the
    paths that exist on storage, the tasks scheduled so far, and the log
    of [os.remove] calls. *)
Record world := World {
  job_status : gmap string Job.t;
  files : gset string;
  background_tasks : list task_args;
  removed : list string
}.

(** Computations that change the world and may raise. *)
Definition M (A : Type) : Type := world → world * result A.

Definition mbind {A B} (m : M A) (k : A → M B) : M B :=
  fun w =>
    match m w with
    | (w', inl e) => (w', inl e)
    | (w', inr a) => k a w'
    end.

(** [try: m except Exception as e: h e]. *)
Definition try_except {A} (m : M A) (h : exn → M A) : M A :=
  fun w =>
    match m w with
    | (w', inl e) => h e w'
    | (w', inr a) => (w', inr a)
    end.

(** [try: m finally: f]: [f] always runs; what it raises wins. *)
Definition try_finally {A} (m : M A) (f : M unit) : M A :=
  fun w =>
    match m w with
    | (w', r) =>
        match f w' with
        | (w'', inl e) => (w'', inl e)
        | (w'', inr _) => (w'', r)
        end
    end.

Notation "'do!' x ':=' m 'in' k" := (mbind m (fun x => k))
  (at level 10, x name, m at level 100, k at level 200).
Notation "m ';;' k" := (mbind m (fun _ => k))
  (at level 100, k at level 200, right associativity).

(** [job_status[job_id]["status"] = s]. *)
Definition set_status (job_id : string) (s : job_state) : M unit :=
  fun w =>
    match job_status w !! job_id with
    | Some j =>
        (World (<[job_id := Job.Make s (Job.video_path j) (Job.metadata j) (Job.result_path j)]>
                  (job_status w))
               (files w) (background_tasks w) (removed w), ret tt)
    | None => (w, raise KeyError)
    end.

(** [job_status[job_id]["result_path"] = p]. *)
Definition set_result_path (job_id : string) (p : string) : M unit :=
  fun w =>
    match job_status w !! job_id with
    | Some j =>
        (World (<[job_id := Job.Make (Job.status j) (Job.video_path j) (Job.metadata j) (Some p)]>
                  (job_status w))
               (files w) (background_tasks w) (removed w), ret tt)
    | None => (w, raise KeyError)
    end.

(** [if os.path.exists(p): os.remove(p)]. *)
Definition remove_if_exists (p : string) : M unit :=
  fun w =>
    if bool_decide (p ∈ files w)
    then (World (job_status w) (files w ∖ {[p]}) (background_tasks w) (p :: removed w), ret tt)
    else (w, ret tt).

(** ** The overlay loop of [render_video_task] *)

Record loop_state := LoopState {
  input_files : list string;
  filter_complex_list : list string;
  current_stream : string;
  filter_count : nat;
  asset_input_index : nat
}.

Definition init_state (video_path : string) : loop_state :=
  LoopState ["ffmpeg"; "-y"; "-i"; video_path] [] "[0:v]" 0 1.

Section Compiler.

Variable repr_container : json → string.
(** [os.getcwd()]. *)
Variable cwd : string.

Local Abbreviation fmt := (str repr_container).

Definition new_stream_of (filter_count : nat) : string :=
  "[v" +:+ pretty filter_count +:+ "]".

Definition enable_between (start end_ : json) : string :=
  "enable='between(t," +:+ fmt start +:+ "," +:+ fmt end_ +:+ ")'".

Definition text_filter_of (text_content : string) (x_pos y_pos start end_ : json) : string :=
  "drawtext=text='" +:+ text_content +:+ "':"
  +:+ "fontfile='" +:+ path_join3 cwd "assets" "Arial.ttf" +:+ "':"
  +:+ "fontcolor=yellow:fontsize=48:x=" +:+ fmt x_pos +:+ ":y=" +:+ fmt y_pos +:+ ":"
  +:+ enable_between start end_.

Definition image_path : string := path_join3 cwd "assets" "logo.png".

Definition scale_stream_of (filter_count : nat) : string :=
  "[img_scaled" +:+ pretty filter_count +:+ "]".

Definition scale_filter_of (asset_input_index filter_count : nat) : string :=
  "[" +:+ pretty asset_input_index +:+ ":v] scale=150:-1 " +:+ scale_stream_of filter_count.

Definition overlay_filter_of (start end_ : json) : string :=
  "overlay=x=W-w-20:y=20:" +:+ enable_between start end_.

(** The two strings appended to [filter_complex_list], lines 68 and 90. *)
Definition text_stage (current_stream text_filter new_stream : string) : string :=
  current_stream +:+ text_filter +:+ new_stream.

Definition image_stage
    (scale_filter current_stream scale_stream overlay_filter new_stream : string) : string :=
  scale_filter +:+ "; " +:+ current_stream +:+ scale_stream +:+ overlay_filter +:+ new_stream.

(** One iteration of [for overlay in overlays], lines 47-92.  [fs] is
    the set of existing paths that [os.path.exists] consults. *)
Definition loop_body (fs : gset string) (st : loop_state) (overlay : json) : result loop_state :=
  let filter_count := S (filter_count st) in
  let! start := subscript overlay "start_time" in
  let! end_ := subscript overlay "end_time" in
  let new_stream := new_stream_of filter_count in
  let! ty := subscript overlay "type" in
  if eq_str ty "text" then
    let! content := subscript overlay "content" in
    let! text_content := replace_quote content in
    let! x_pos := get overlay "x_pos" (JInt 50) in
    let! y_pos := get overlay "y_pos" (JInt 50) in
    let text_filter := text_filter_of text_content x_pos y_pos start end_ in
    ret (LoopState (input_files st)
           (filter_complex_list st ++ [text_stage (current_stream st) text_filter new_stream])
           new_stream filter_count (asset_input_index st))
  else
    let! ty' := subscript overlay "type" in
    if eq_str ty' "image" then
      if negb (bool_decide (image_path ∈ fs)) then
        (* continue *)
        ret (LoopState (input_files st) (filter_complex_list st) (current_stream st)
               filter_count (asset_input_index st))
      else
        let scale_stream := scale_stream_of filter_count in
        let scale_filter := scale_filter_of (asset_input_index st) filter_count in
        let overlay_filter := overlay_filter_of start end_ in
        ret (LoopState (input_files st ++ ["-i"; image_path])
               (filter_complex_list st ++
                  [image_stage scale_filter (current_stream st) scale_stream
                     overlay_filter new_stream])
               new_stream filter_count (S (asset_input_index st)))
    else
      ret (LoopState (input_files st) (filter_complex_list st) (current_stream st)
             filter_count (asset_input_index st)).

Fixpoint run_loop (fs : gset string) (st : loop_state) (overlays : list json) : result loop_state :=
  match overlays with
  | [] => ret st
  | overlay :: rest =>
      let! st' := loop_body fs st overlay in
      run_loop fs st' rest
  end.

(** [", ".join(filter_complex_list)] and the argument list of lines 98-109. *)
Definition filter_complex_string_of (st : loop_state) : string :=
  String.concat ", " (filter_complex_list st).

Definition command_of (st : loop_state) (output_path : string) : list string :=
  input_files st ++
  ["-filter_complex"; filter_complex_string_of st;
   "-map"; current_stream st;
   "-map"; "0:a?";
   "-c:v"; "libx264";
   "-crf"; "23";
   "-preset"; "veryfast";
   "-c:a"; "aac";
   "-b:a"; "192k";
   output_path].

Definition output_path_of (job_id : string) : string :=
  path_join STORAGE_DIR (job_id +:+ "_final.mp4").

End Compiler.

(** ** The background task and the upload endpoint *)

Section Task.

Variable repr_container : json → string.
Variable cwd : string.
(** [json.loads]: [None] when the text is not JSON. *)
Variable json_loads : string → option json.
(** [subprocess.run(command, ...)]: what the external process does to
    storage and how it ends. *)
Variable subprocess_run : list string → gset string → proc_outcome * gset string.

(** Lines 32-109: from the metadata text to the command and the output
    path.  Nothing here changes the world. *)
Definition build_command (fs : gset string) (job_id video_path metadata_str : string)
    : result (list string * string) :=
  let! metadata :=
    match json_loads metadata_str with
    | Some v => ret v
    | None => raise JSONDecodeError
    end in
  let! overlays := get metadata "overlays" (JList []) in
  let output_path := output_path_of job_id in
  let! items := iter overlays in
  let! st := run_loop repr_container cwd fs (init_state video_path) items in
  ret (command_of st output_path, output_path).

(** [subprocess.run(command, check=True, ...)]. *)
Definition run_checked (command : list string) : M unit :=
  fun w =>
    match subprocess_run command (files w) with
    | (Exited 0, fs') =>
        (World (job_status w) fs' (background_tasks w) (removed w), ret tt)
    | (Exited code, fs') =>
        (World (job_status w) fs' (background_tasks w) (removed w),
         raise (CalledProcessError code))
    | (NotStarted, fs') =>
        (World (job_status w) fs' (background_tasks w) (removed w), raise OSError)
    | (OutputNotDecoded, fs') =>
        (World (job_status w) fs' (background_tasks w) (removed w),
         raise UnicodeDecodeError)
    end.

(** The body of the [try], lines 28-118. *)
Definition try_body (job_id video_path metadata_str : string) : M unit :=
  set_status job_id PROCESSING ;;
  do! built := (fun w => (w, build_command (files w) job_id video_path metadata_str)) in
  let '(command, output_path) := built in
  run_checked command ;;
  set_result_path job_id output_path ;;
  set_status job_id COMPLETE.

(** The two [except] clauses, lines 120-126. *)
Definition handler (job_id : string) (e : exn) : M unit :=
  match e with
  | CalledProcessError _ => set_status job_id FAILED
  | _ => set_status job_id FAILED
  end.

Definition render_video_task (job_id video_path metadata_str : string) : M unit :=
  try_finally
    (try_except (try_body job_id video_path metadata_str) (handler job_id))
    (remove_if_exists video_path).

(** What [upload_video] answers: the JSON body or an [HTTPException]. *)
Inductive response :=
| Accepted (job_id : string) (status : job_state)
| HTTPError (status_code : nat).

Definition temp_video_path_of (job_id filename : string) : string :=
  path_join STORAGE_DIR (job_id +:+ "_" +:+ filename).

(** [upload_video], lines 143-165.  [job_id] is what [uuid.uuid4()]
    returned, [filename] the client's [video_file.filename], and
    [write_ok] whether opening and writing the file worked. *)
Definition upload_video (job_id filename metadata : string) (write_ok : bool)
    : world → world * response :=
  fun w =>
    let temp_video_path := temp_video_path_of job_id filename in
    if negb write_ok then (w, HTTPError 500)
    else
      (World (<[job_id := Job.Make PENDING temp_video_path metadata None]> (job_status w))
             (files w ∪ {[temp_video_path]})
             (background_tasks w ++ [TaskArgs job_id temp_video_path metadata])
             (removed w),
       Accepted job_id PENDING).

End Task.

(** ** Overlay entries of the data model *)

(** The value of a field of an overlay, [None]-like when it is absent. *)
Definition field (o : json) (k : string) : json :=
  match o with
  | JDict d => default JNull (d !! k)
  | _ => JNull
  end.

Definition field_or (o : json) (k : string) (dflt : json) : json :=
  match o with
  | JDict d => default dflt (d !! k)
  | _ => dflt
  end.

Definition content_of (o : json) : string :=
  match field o "content" with
  | JStr s => s
  | _ => ""
  end.

Definition has_field (o : json) (k : string) : bool :=
  match o with
  | JDict d => bool_decide (is_Some (d !! k))
  | _ => false
  end.

Definition is_str (o : json) : bool :=
  match o with
  | JStr _ => true
  | _ => false
  end.

(** A Text overlay: both times, kind [text] and a textual content. *)
Definition is_text (o : json) : bool :=
  has_field o "start_time" && has_field o "end_time"
  && eq_str (field o "type") "text" && is_str (field o "content").

(** An Image overlay: both times and kind [image]. *)
Definition is_image (o : json) : bool :=
  has_field o "start_time" && has_field o "end_time"
  && eq_str (field o "type") "image".

Definition count_images (overlays : list json) : nat :=
  length (List.filter is_image overlays).

(** The stream the stage at position [i] (from 0) reads when every
    earlier overlay emitted a stage. *)
Definition label_at (i : nat) : string :=
  match i with
  | 0 => "[0:v]"
  | S _ => new_stream_of i
  end.

(** ** The command line of the interface description *)

(** [<encoder> -y -i <input> [-i <aux> ...] -filter_complex <stages
    joined by sep> -map <final> -map 0:a? -c:v libx264 -crf 23 -preset
    veryfast -c:a aac -b:a 192k <output>], for a separator [sep]. *)
Definition command_shape (sep input : string) (aux stages : list string)
    (final output : string) : list string :=
  ["ffmpeg"; "-y"; "-i"; input]
  ++ concat ((λ a, ["-i"; a]) <$> aux)
  ++ ["-filter_complex"; String.concat sep stages;
      "-map"; final; "-map"; "0:a?";
      "-c:v"; "libx264"; "-crf"; "23"; "-preset"; "veryfast";
      "-c:a"; "aac"; "-b:a"; "192k"; output].

(** The shape as the interface description words it: stages joined by
    a semicolon and a space. *)
Definition spec_command : string → list string → list string → string → string → list string :=
  command_shape "; ".

(** The argument that follows [-filter_complex], if the option occurs. *)
Fixpoint graph_argument (command : list string) : option string :=
  match command with
  | [] => None
  | a :: rest =>
      if String.eqb a "-filter_complex" then head rest else graph_argument rest
  end.

(** A command that tolerates an empty filter graph: it is filter-less,
    or the filter graph it passes is not the empty text. *)
Definition tolerates_empty_graph (command : list string) : bool :=
  match graph_argument command with
  | None => true
  | Some graph => negb (String.eqb graph "")
  end.

(** ** Where a path points *)

(** [path.split("/")]. *)
Fixpoint components (path : string) : list string :=
  match path with
  | EmptyString => [""]
  | String c rest =>
      if Ascii.eqb c "/" then "" :: components rest
      else match components rest with
           | [] => [String c ""]
           | first :: others => String c first :: others
           end
  end.

(** The loop of [posixpath.normpath] over the components, with the
    components kept so far in reverse. *)
Fixpoint normalize (initial_slashes : bool) (kept : list string) (comps : list string)
    : list string :=
  match comps with
  | [] => rev kept
  | comp :: rest =>
      if String.eqb comp "" || String.eqb comp "." then normalize initial_slashes kept rest
      else if negb (String.eqb comp "..")
              || (negb initial_slashes && bool_decide (kept = []))
              || bool_decide (head kept = Some "..")
      then normalize initial_slashes (comp :: kept) rest
      else normalize initial_slashes (tail kept) rest
  end.

Definition resolved (path : string) : list string :=
  normalize (starts_with_sep path) [] (components path).

(** A relative path that, once resolved, names something below
    [STORAGE_DIR]. *)
Definition inside_storage (path : string) : bool :=
  negb (starts_with_sep path) &&
  match resolved path with
  | dir :: _ :: _ => String.eqb dir STORAGE_DIR
  | _ => false
  end.

Fixpoint no_sep (s : string) : bool :=
  match s with
  | EmptyString => true
  | String c rest => negb (Ascii.eqb c "/") && no_sep rest
  end.

(** ** Opening the upload for writing *)

(** The file system as [open] sees it: the directories that exist, each
    named by its components from the root (the root is the empty
    list).  Symbolic links are left out. *)
Definition directories : Type := gset (list string).

(** One component of a path met in the directory [at_dir]: an empty
    component and [.] stay there, [..] goes to the parent (the root is
    its own parent), a name enters the directory of that name, and
    fails when there is none. *)
Definition enter (dirs : directories) (at_dir : list string) (comp : string)
    : option (list string) :=
  if String.eqb comp "" || String.eqb comp "." then Some at_dir
  else if String.eqb comp ".." then Some (removelast at_dir)
  else if bool_decide (at_dir ++ [comp] ∈ dirs) then Some (at_dir ++ [comp])
  else None.

(** The directory that the components before the last lead to, and the
    last component. *)
Fixpoint walk (dirs : directories) (at_dir : list string) (comps : list string)
    : option (list string * string) :=
  match comps with
  | [] => None
  | comp :: rest =>
      match rest with
      | [] => Some (at_dir, comp)
      | _ :: _ =>
          match enter dirs at_dir comp with
          | Some next => walk dirs next rest
          | None => None
          end
      end
  end.

(** [open(path, "wb")], line 147, with the working directory
    [cwd_dir]: the file that is created or truncated; [None] when the
    call raises because a directory on the way does not exist or the
    last component names no file ([FileNotFoundError],
    [NotADirectoryError], [IsADirectoryError]). *)
Definition open_wb (dirs : directories) (cwd_dir : list string) (path : string)
    : option (list string) :=
  match walk dirs (if starts_with_sep path then [] else cwd_dir) (components path) with
  | Some (dir, name) =>
      if String.eqb name "" || String.eqb name "." || String.eqb name ".."
         || bool_decide (dir ++ [name] ∈ dirs)
      then None
      else Some (dir ++ [name])
  | None => None
  end.

(** [upload_video] on a file system: the upload is written when [open]
    returns the file and nothing else fails ([io_ok]: reading the
    upload, writing it out). *)
Definition upload_video_on (dirs : directories) (cwd_dir : list string) (io_ok : bool)
    (job_id filename metadata : string) : world → world * response :=
  upload_video job_id filename metadata
    (bool_decide (is_Some (open_wb dirs cwd_dir (temp_video_path_of job_id filename)))
     && io_ok).

(** No directory lies in the storage directory: the program creates the
    storage directory (line 14) and only ever writes files into it. *)
Definition flat_storage (dirs : directories) (cwd_dir : list string) : Prop :=
  ∀ name, cwd_dir ++ [STORAGE_DIR; name] ∉ dirs.

(** ** Overlays that parse into entries of the data model *)

Section Validation.

Variable json_loads : string → option json.

(** The overlay list of a metadata text, when there is one. *)
Definition overlays_of (metadata : string) : option (list json) :=
  match json_loads metadata with
  | Some (JDict d) =>
      match d !! "overlays" with
      | Some (JList overlays) => Some overlays
      | Some _ => None
      | None => Some []
      end
  | _ => None
  end.

(** Every overlay of the text is a Text or an Image entry. *)
Definition overlays_valid (metadata : string) : bool :=
  match overlays_of metadata with
  | Some overlays => forallb (λ o, is_text o || is_image o) overlays
  | None => false
  end.

End Validation.

(** ** What the loop and the task can have done *)

Section Outcomes.

Variable repr_container : json → string.
Variable cwd : string.
Variable json_loads : string → option json.
Variable subprocess_run : list string → gset string → proc_outcome * gset string.

Local Abbreviation text_filter := (text_filter_of repr_container cwd).
Local Abbreviation overlay_filter := (overlay_filter_of repr_container).
Local Abbreviation logo := (image_path cwd).
Local Abbreviation build := (build_command repr_container cwd json_loads).

(** The three things an iteration that does not raise can have done. *)
Inductive iteration (fs : gset string) (st : loop_state) : loop_state → Prop :=
| iteration_skip :
    iteration fs st
      (LoopState (input_files st) (filter_complex_list st) (current_stream st)
         (S (filter_count st)) (asset_input_index st))
| iteration_text text_content x_pos y_pos start end_ :
    iteration fs st
      (LoopState (input_files st)
         (filter_complex_list st ++
            [text_stage (current_stream st)
               (text_filter text_content x_pos y_pos start end_)
               (new_stream_of (S (filter_count st)))])
         (new_stream_of (S (filter_count st)))
         (S (filter_count st)) (asset_input_index st))
| iteration_image start end_ :
    logo ∈ fs →
    iteration fs st
      (LoopState (input_files st ++ ["-i"; logo])
         (filter_complex_list st ++
            [image_stage (scale_filter_of (asset_input_index st) (S (filter_count st)))
               (current_stream st) (scale_stream_of (S (filter_count st)))
               (overlay_filter start end_)
               (new_stream_of (S (filter_count st)))])
         (new_stream_of (S (filter_count st)))
         (S (filter_count st)) (S (asset_input_index st))).

(** A strict chain: [chain cur lo stages labels final] says that the
    first of [stages] reads [cur], each one writes a label [[vn]] with
    [n] above every earlier count (and above [lo]) that the next one
    reads, [labels] are the labels written, and [final] is the last one
    ([cur] when there is no stage). *)
Inductive chain : string → nat → list string → list string → string → Prop :=
| chain_nil cur lo : chain cur lo [] [] cur
| chain_text cur lo n text_content x_pos y_pos start end_ rest labels final :
    lo < n →
    chain (new_stream_of n) n rest labels final →
    chain cur lo
      (text_stage cur (text_filter text_content x_pos y_pos start end_) (new_stream_of n)
         :: rest)
      (new_stream_of n :: labels) final
| chain_image cur lo n k start end_ rest labels final :
    lo < n →
    chain (new_stream_of n) n rest labels final →
    chain cur lo
      (image_stage (scale_filter_of k n) cur (scale_stream_of n)
         (overlay_filter start end_) (new_stream_of n) :: rest)
      (new_stream_of n :: labels) final.

(** The overlays applied in the order given: [applied fs cur n overlays
    stages final] says that [stages] are what the overlays yield one
    after the other when the first stage reads [cur] and [n] overlays
    came before.  An overlay of type [text] yields its drawtext stage,
    one of type [image] its scale and compositing stage if the logo is
    on storage [fs], any other overlay nothing; a stage reads the label
    written by the stage before it and writes [[vi]] for the place [i]
    (from 1) of its overlay in the list; [final] is the label written
    last ([cur] when nothing was yielded). *)
Inductive applied (fs : gset string) : string → nat → list json → list string → string → Prop :=
| applied_nil cur n : applied fs cur n [] [] cur
| applied_text cur n o rest stages final :
    eq_str (field o "type") "text" = true →
    applied fs (new_stream_of (S n)) (S n) rest stages final →
    applied fs cur n (o :: rest)
      (text_stage cur
         (text_filter (escape_quotes (content_of o))
            (field_or o "x_pos" (JInt 50)) (field_or o "y_pos" (JInt 50))
            (field o "start_time") (field o "end_time"))
         (new_stream_of (S n)) :: stages)
      final
| applied_image cur n k o rest stages final :
    eq_str (field o "type") "image" = true →
    logo ∈ fs →
    applied fs (new_stream_of (S n)) (S n) rest stages final →
    applied fs cur n (o :: rest)
      (image_stage (scale_filter_of k (S n)) cur (scale_stream_of (S n))
         (overlay_filter (field o "start_time") (field o "end_time"))
         (new_stream_of (S n)) :: stages)
      final
| applied_skip cur n o rest stages final :
    eq_str (field o "type") "text" = false →
    eq_str (field o "type") "image" = false ∨ logo ∉ fs →
    applied fs cur (S n) rest stages final →
    applied fs cur n (o :: rest) stages final.

(** The stage a well-formed overlay yields when it reads [cur], is the
    [n]-th overlay and, for an image, reads auxiliary input [k]. *)
Definition stage_of (cur : string) (k n : nat) (o : json) : string :=
  if is_text o then
    text_stage cur
      (text_filter (escape_quotes (content_of o))
         (field_or o "x_pos" (JInt 50)) (field_or o "y_pos" (JInt 50))
         (field o "start_time") (field o "end_time"))
      (new_stream_of n)
  else
    image_stage (scale_filter_of k n) cur (scale_stream_of n)
      (overlay_filter (field o "start_time") (field o "end_time"))
      (new_stream_of n).

Definition well_formed (o : json) : Prop := is_text o = true ∨ is_image o = true.

(** Storage when the [try]/[except] part is over: what the encoder left,
    or the storage at the start when the encoder was never reached. *)
Definition storage_after_try (w : world) (job_id video_path metadata_str : string)
    : gset string :=
  match build (files w) job_id video_path metadata_str with
  | inr (command, _) => (subprocess_run command (files w)).2
  | inl _ => files w
  end.

(** Whether the command was built and [subprocess.run] returned with
    the exit code 0. *)
Definition encoded_ok (w : world) (job_id video_path metadata_str : string) : bool :=
  match build (files w) job_id video_path metadata_str with
  | inr (command, _) => bool_decide ((subprocess_run command (files w)).1 = Exited 0)
  | inl _ => false
  end.

(** The world the task leaves for a job [j0] that was in the map. *)
Definition settled (w : world) (job_id video_path metadata_str : string) (j0 : Job.t)
    : world :=
  let fs := storage_after_try w job_id video_path metadata_str in
  World
    (<[job_id :=
         if encoded_ok w job_id video_path metadata_str
         then Job.Make COMPLETE (Job.video_path j0) (Job.metadata j0)
                (Some (output_path_of job_id))
         else Job.Make FAILED (Job.video_path j0) (Job.metadata j0) (Job.result_path j0)]>
       (job_status w))
    (fs ∖ {[video_path]})
    (background_tasks w)
    ((if bool_decide (video_path ∈ fs) then [video_path] else []) ++ removed w).

End Outcomes.

(** ** The status and result endpoints *)

(** [raise HTTPException(status_code=..., detail=...)]. *)
Inductive http_exception :=
| HTTPException (status_code : nat) (detail : string).

(** The text of a status, as the job record holds it. *)
Definition status_text (s : job_state) : string :=
  match s with
  | PENDING => "PENDING"
  | PROCESSING => "PROCESSING"
  | COMPLETE => "COMPLETE"
  | FAILED => "FAILED"
  end.

(** [FileResponse(path=..., media_type=..., filename=...)]. *)
Record file_response := FileResponse {
  response_path : string;
  response_media_type : string;
  response_filename : string
}.

(** [os.path.basename(p)] of [posixpath]: what follows the last slash. *)
Fixpoint basename (p : string) : string :=
  match p with
  | EmptyString => EmptyString
  | String c rest =>
      if negb (no_sep rest) then basename rest
      else if Ascii.eqb c "/" then rest
      else p
  end.

(** [get_status], lines 169-175: the body [{"job_id": ..., "status": ...}]
    or the 404. *)
Definition get_status (job_id : string) (w : world) : http_exception + (string * job_state) :=
  match job_status w !! job_id with
  | None => inl (HTTPException 404 "Job not found")
  | Some j => inr (job_id, Job.status j)
  end.

(** [get_result], lines 179-200. *)
Definition get_result (job_id : string) (w : world) : http_exception + file_response :=
  match job_status w !! job_id with
  | None => inl (HTTPException 404 "Job not found")
  | Some j =>
      let status := Job.status j in
      if negb (bool_decide (status = COMPLETE)) then
        inl (HTTPException 409
               ("Video processing not ready. Status: " +:+ status_text status))
      else
        match Job.result_path j with
        | None => inl (HTTPException 500 "Rendered file missing.")
        | Some result_path =>
            if String.eqb result_path "" || negb (bool_decide (result_path ∈ files w))
            then inl (HTTPException 500 "Rendered file missing.")
            else inr (FileResponse result_path "video/mp4" (basename result_path))
        end
  end.

(** ** Running what was scheduled *)

Section Scheduled.

Variable repr_container : json → string.
Variable cwd : string.
Variable json_loads : string → option json.
Variable subprocess_run : list string → gset string → proc_outcome * gset string.

(** A task of [background_tasks] being run: [render_video_task] on the
    arguments [add_task] was given. *)
Definition run_task (t : task_args) : M unit :=
  render_video_task repr_container cwd json_loads subprocess_run
    (task_job_id t) (task_video_path t) (task_metadata t).

(** A request to [/upload] that was written, followed by the task it
    scheduled. *)
Definition upload_then_render (job_id filename metadata : string) (w : world)
    : world * result unit :=
  let w1 := (upload_video job_id filename metadata true w).1 in
  run_task (TaskArgs job_id (temp_video_path_of job_id filename) metadata) w1.

(** Image stages read the auxiliary inputs one after the other:
    [aux_indexed k stages k'] says that the image stages among [stages]
    read [[k:v]], [[(k+1):v]], ... and [k'] is the next free index. *)
Inductive aux_indexed : nat → list string → nat → Prop :=
| aux_nil k : aux_indexed k [] k
| aux_text k cur text_content x_pos y_pos start end_ new rest k' :
    aux_indexed k rest k' →
    aux_indexed k
      (text_stage cur (text_filter_of repr_container cwd text_content x_pos y_pos start end_)
         new :: rest) k'
| aux_image k n cur start end_ new rest k' :
    aux_indexed (S k) rest k' →
    aux_indexed k
      (image_stage (scale_filter_of k n) cur (scale_stream_of n)
         (overlay_filter_of repr_container start end_) new :: rest) k'.

End Scheduled.

(** An overlay the loop body gets through: a dict with both times and a
    kind, whose content is a string when the kind is [text]. *)
Definition accepted (o : json) : bool :=
  has_field o "start_time" && has_field o "end_time" && has_field o "type"
  && (negb (eq_str (field o "type") "text") || is_str (field o "content")).

(** The overlays of kind [text], whether or not the loop gets through them. *)
Definition count_text (overlays : list json) : nat :=
  length (List.filter (λ o, eq_str (field o "type") "text") overlays).

(** The single quotes of a text. *)
Fixpoint count_quotes (s : string) : nat :=
  match s with
  | EmptyString => 0
  | String c rest => (if Ascii.eqb c "'" then 1 else 0) + count_quotes rest
  end.

(** No single quote of the text stands first or after a character other
    than a backslash; [after_backslash] tells what the previous
    character was. *)
Fixpoint quotes_follow_backslash (after_backslash : bool) (s : string) : bool :=
  match s with
  | EmptyString => true
  | String c rest =>
      (negb (Ascii.eqb c "'") || after_backslash)
      && quotes_follow_backslash (Ascii.eqb c "\") rest
  end.

(** ** Demonstration inputs *)

Module Demo.

(** The double-quote character of JSON texts. *)
Definition dq : string := String (Ascii.Ascii false true false false false true false false) "".

Definition q (s : string) : string := dq +:+ s +:+ dq.

Definition overlay_dict (fields : list (string * json)) : json :=
  JDict (list_to_map fields).

Definition text_hi : json :=
  overlay_dict [("type", JStr "text"); ("content", JStr "Hi");
                ("start_time", JInt 0); ("end_time", JInt 2)].

Definition image_2_4 : json :=
  overlay_dict [("type", JStr "image"); ("start_time", JInt 2); ("end_time", JInt 4)].

Definition sticker : json :=
  overlay_dict [("type", JStr "sticker"); ("start_time", JInt 0); ("end_time", JInt 1)].

Definition text_yo : json :=
  overlay_dict [("type", JStr "text"); ("content", JStr "Yo");
                ("start_time", JInt 2); ("end_time", JInt 3);
                ("x_pos", JInt 10); ("y_pos", JInt 20)].

Definition text_its : json :=
  overlay_dict [("type", JStr "text"); ("content", JStr "it's");
                ("start_time", JInt 0); ("end_time", JInt 2)].

Definition text_clock : json :=
  overlay_dict [("type", JStr "text"); ("content", JStr "10:30");
                ("start_time", JInt 0); ("end_time", JInt 2)].

Definition metadata_of (overlays : list json) : json :=
  JDict {[ "overlays" := JList overlays ]}.

(** JSON texts and what [json.loads] makes of them. *)
Definition doc_empty : string := "{" +:+ q "overlays" +:+ ": []}".

Definition doc_text_image : string :=
  "{" +:+ q "overlays" +:+ ": [{" +:+ q "type" +:+ ": " +:+ q "text" +:+ ", "
  +:+ q "content" +:+ ": " +:+ q "Hi" +:+ ", " +:+ q "start_time" +:+ ": 0, "
  +:+ q "end_time" +:+ ": 2}, {" +:+ q "type" +:+ ": " +:+ q "image" +:+ ", "
  +:+ q "start_time" +:+ ": 2, " +:+ q "end_time" +:+ ": 4}]}".

Definition doc_sticker : string :=
  "{" +:+ q "overlays" +:+ ": [{" +:+ q "type" +:+ ": " +:+ q "sticker" +:+ ", "
  +:+ q "start_time" +:+ ": 0, " +:+ q "end_time" +:+ ": 1}]}".

Definition doc_two_texts : string :=
  "{" +:+ q "overlays" +:+ ": [{" +:+ q "type" +:+ ": " +:+ q "text" +:+ ", "
  +:+ q "content" +:+ ": " +:+ q "Hi" +:+ ", " +:+ q "start_time" +:+ ": 0, "
  +:+ q "end_time" +:+ ": 2}, {" +:+ q "type" +:+ ": " +:+ q "text" +:+ ", "
  +:+ q "content" +:+ ": " +:+ q "Yo" +:+ ", " +:+ q "start_time" +:+ ": 2, "
  +:+ q "end_time" +:+ ": 3, " +:+ q "x_pos" +:+ ": 10, " +:+ q "y_pos" +:+ ": 20}]}".

(** [json.loads] on the texts above; anything else is taken not to parse. *)
Definition loads (text : string) : option json :=
  if String.eqb text doc_empty then Some (metadata_of [])
  else if String.eqb text doc_text_image then Some (metadata_of [text_hi; image_2_4])
  else if String.eqb text doc_sticker then Some (metadata_of [sticker])
  else if String.eqb text doc_two_texts then Some (metadata_of [text_hi; text_yo])
  else None.

(** Python's text for a container never matters in these inputs. *)
Definition no_repr (_ : json) : string := "".

Definition cwd : string := "/app".

Definition logo : string := "/app/assets/logo.png".

(** An encoder that exits with 0 and writes its last argument. *)
Definition encoder_ok (command : list string) (fs : gset string) : proc_outcome * gset string :=
  (Exited 0, fs ∪ list_to_set (option_list (last command))).

(** An encoder that exits with 0 and writes nothing. *)
Definition encoder_silent (command : list string) (fs : gset string)
    : proc_outcome * gset string :=
  (Exited 0, fs).

(** An encoder that exits with 1. *)
Definition encoder_fails (command : list string) (fs : gset string)
    : proc_outcome * gset string :=
  (Exited 1, fs).

Definition job_id : string := "0b0e7a52-7c1f-4c8e-9a55-3d2f6f1c9b10".

Definition clip : string :=
  "rendered_videos/0b0e7a52-7c1f-4c8e-9a55-3d2f6f1c9b10_clip.mp4".

Definition final : string :=
  "rendered_videos/0b0e7a52-7c1f-4c8e-9a55-3d2f6f1c9b10_final.mp4".

Definition empty_world : world := World ∅ ∅ [] [].

(** The world after [clip.mp4] was uploaded with the metadata [doc];
    the logo asset is not on storage. *)
Definition uploaded (doc : string) : world :=
  (upload_video job_id "clip.mp4" doc true empty_world).1.

End Demo.

(** ** Further demonstration inputs *)

Module MoreDemo.

(** A metadata object without the key [overlays], a JSON list, an
    [overlays] value that is a string, and a text overlay without times. *)
Definition doc_no_key : string := "{}".

Definition doc_list : string := "[]".

Definition doc_overlays_text : string :=
  "{" +:+ Demo.q "overlays" +:+ ": " +:+ Demo.q "abc" +:+ "}".

Definition doc_no_times : string :=
  "{" +:+ Demo.q "overlays" +:+ ": [{" +:+ Demo.q "type" +:+ ": " +:+ Demo.q "text" +:+ ", "
  +:+ Demo.q "content" +:+ ": " +:+ Demo.q "Hi" +:+ "}]}".

Definition text_no_times : json :=
  Demo.overlay_dict [("type", JStr "text"); ("content", JStr "Hi")].

(** [json.loads] on these texts and on those of [Demo]. *)
Definition loads (text : string) : option json :=
  if String.eqb text doc_no_key then Some (JDict ∅)
  else if String.eqb text doc_list then Some (JList [])
  else if String.eqb text doc_overlays_text then Some (JDict {[ "overlays" := JStr "abc" ]})
  else if String.eqb text doc_no_times then Some (Demo.metadata_of [text_no_times])
  else Demo.loads text.

(** The world after [clip.mp4] was uploaded with the metadata [doc] while
    the logo asset is on storage. *)
Definition uploaded_with_logo (doc : string) : world :=
  (upload_video Demo.job_id "clip.mp4" doc true (World ∅ {[Demo.logo]} [] [])).1.

End MoreDemo.

(** ** An upload whose only overlay is an image *)

Module SkipDemo.

Definition doc_image_only : string :=
  "{" +:+ Demo.q "overlays" +:+ ": [{" +:+ Demo.q "type" +:+ ": " +:+ Demo.q "image" +:+ ", "
  +:+ Demo.q "start_time" +:+ ": 2, " +:+ Demo.q "end_time" +:+ ": 4}]}".

(** [json.loads] on this text and on those of [Demo]. *)
Definition loads (text : string) : option json :=
  if String.eqb text doc_image_only then Some (Demo.metadata_of [Demo.image_2_4])
  else Demo.loads text.

(** An encoder that, as ffmpeg does, refuses a command whose filter
    graph is the empty text (exit code 1, nothing written), and
    otherwise exits with 0 and writes its last argument. *)
Definition encoder_strict (command : list string) (fs : gset string)
    : proc_outcome * gset string :=
  if tolerates_empty_graph command then Demo.encoder_ok command fs else (Exited 1, fs).

End SkipDemo.

(** ** A file system for the uploads *)

Module DiskDemo.

(** The root with [/etc] and [/app], and the storage directory in
    [/app], the working directory. *)
Definition dirs : directories :=
  {[ []; ["etc"]; ["app"]; ["app"; "rendered_videos"] ]}.

Definition cwd_dir : list string := ["app"].

End DiskDemo.

(** ** Facts about strings and the result monad *)

Example path_join_ex : path_join "rendered_videos" "j_final.mp4" = "rendered_videos/j_final.mp4".
Proof. reflexivity. Qed.
Example str_ex : str (fun _ => "") (JInt (-12)) = "-12" ∧ str (fun _ => "") (JInt 0) = "0".
Proof. vm_compute. done. Qed.
Example esc_ex : escape_quotes "it's" = "it\'s".
Proof. reflexivity. Qed.


Lemma app_cons (c : ascii) (s t : string) : String c s +:+ t = String c (s +:+ t).
Proof. reflexivity. Qed.

Lemma app_empty_l (s : string) : "" +:+ s = s.
Proof. reflexivity. Qed.

Lemma app_assoc_str (s t u : string) : (s +:+ t) +:+ u = s +:+ t +:+ u.
Proof. induction s as [|c s IH]; [done|]. rewrite !app_cons. by f_equal. Qed.

Lemma length_app_str (s t : string) :
  String.length (s +:+ t) = String.length s + String.length t.
Proof. induction s as [|c s IH]; [done|]. rewrite app_cons. simpl. by f_equal. Qed.

Lemma app_inj_r (s1 s2 t : string) : s1 +:+ t = s2 +:+ t → s1 = s2.
Proof.
  revert s2. induction s1 as [|c s1 IH]; intros [|c2 s2] H.
  - done.
  - exfalso. apply (f_equal String.length) in H.
    rewrite app_empty_l, app_cons in H. simpl in H. rewrite length_app_str in H. lia.
  - exfalso. apply (f_equal String.length) in H.
    rewrite app_empty_l, app_cons in H. simpl in H. rewrite length_app_str in H. lia.
  - rewrite !app_cons in H. injection H as -> H. f_equal. by apply IH.
Qed.

Lemma bind_inr {A B} (m : result A) (k : A → result B) (b : B) :
  Py.bind m k = inr b → ∃ a, m = inr a ∧ k a = inr b.
Proof. destruct m as [e|a]; simpl; [done|]. eauto. Qed.

Lemma subscript_inr_field (o : json) (k : string) (v : json) :
  subscript o k = inr v → v = field o k ∧ has_field o k = true.
Proof.
  destruct o; simpl; try done. destruct (d !! k); simpl; [|done].
  by intros [= ->].
Qed.

Lemma subscript_inl_field (o : json) (k : string) (e : exn) :
  subscript o k = inl e → has_field o k = false.
Proof.
  destruct o; simpl; try done. by destruct (d !! k).
Qed.

(** ** Facts about the overlay loop *)

Section CompilerFacts.

Variable repr_container : json → string.
Variable cwd : string.

Local Abbreviation body := (loop_body repr_container cwd).
Local Abbreviation loop := (run_loop repr_container cwd).
Local Abbreviation text_filter := (text_filter_of repr_container cwd).
Local Abbreviation overlay_filter := (overlay_filter_of repr_container).
Local Abbreviation logo := (image_path cwd).
Local Abbreviation step := (iteration repr_container cwd).
Local Abbreviation chained := (chain repr_container cwd).
Local Abbreviation in_order := (applied repr_container cwd).
Local Abbreviation stage := (stage_of repr_container cwd).

Lemma new_stream_of_inj (n m : nat) : new_stream_of n = new_stream_of m → n = m.
Proof.
  unfold new_stream_of. rewrite !app_cons, !app_empty_l.
  intros [= H]. apply app_inj_r in H. by apply (inj pretty) in H.
Qed.

Lemma new_stream_of_not_primary (n : nat) : new_stream_of n ≠ "[0:v]".
Proof. unfold new_stream_of. rewrite !app_cons. discriminate. Qed.

Lemma loop_body_iteration fs st overlay st' :
  body fs st overlay = inr st' → step fs st st'.
Proof.
  unfold loop_body. intros H.
  apply bind_inr in H as (start & _ & H).
  apply bind_inr in H as (end_ & _ & H).
  apply bind_inr in H as (ty & _ & H).
  destruct (eq_str ty "text").
  - apply bind_inr in H as (content & _ & H).
    apply bind_inr in H as (text_content & _ & H).
    apply bind_inr in H as (x_pos & _ & H).
    apply bind_inr in H as (y_pos & _ & H).
    injection H as <-. constructor.
  - apply bind_inr in H as (ty' & _ & H).
    destruct (eq_str ty' "image"); [|injection H as <-; constructor].
    destruct (bool_decide (logo ∈ fs)) eqn:E; simpl in H; injection H as <-.
    + constructor. by apply bool_decide_eq_true in E.
    + constructor.
Qed.

Lemma chain_weaken cur lo lo' stages labels final :
  lo' ≤ lo → chained cur lo stages labels final → chained cur lo' stages labels final.
Proof. intros Hle H. destruct H; econstructor; eauto; lia. Qed.

Lemma chain_labels_above cur lo stages labels final :
  chained cur lo stages labels final →
  Forall (λ l, ∃ n, lo < n ∧ l = new_stream_of n) labels.
Proof.
  induction 1 as [| ? ? n ? ? ? ? ? ? ? ? Hlt _ IH | ? ? n ? ? ? ? ? ? Hlt _ IH].
  - constructor.
  - constructor; [eauto|]. eapply Forall_impl; [exact IH|].
    intros l (m & ? & ->). exists m. split; [lia|done].
  - constructor; [eauto|]. eapply Forall_impl; [exact IH|].
    intros l (m & ? & ->). exists m. split; [lia|done].
Qed.

Lemma chain_labels_NoDup cur lo stages labels final :
  chained cur lo stages labels final → NoDup ("[0:v]" :: labels).
Proof.
  intros H. constructor.
  - apply chain_labels_above in H. rewrite Forall_forall in H.
    intros Hin. destruct (H _ Hin) as (n & _ & Heq).
    by eapply new_stream_of_not_primary.
  - induction H as [| ? ? n ? ? ? ? ? ? ? ? Hlt Hc IH | ? ? n ? ? ? ? ? ? Hlt Hc IH].
    + constructor.
    + constructor; [|done]. apply chain_labels_above in Hc.
      rewrite Forall_forall in Hc. intros Hin.
      destruct (Hc _ Hin) as (m & ? & Heq). apply new_stream_of_inj in Heq. lia.
    + constructor; [|done]. apply chain_labels_above in Hc.
      rewrite Forall_forall in Hc. intros Hin.
      destruct (Hc _ Hin) as (m & ? & Heq). apply new_stream_of_inj in Heq. lia.
Qed.

Lemma chain_final cur lo stages labels final :
  chained cur lo stages labels final → final = default cur (last labels).
Proof.
  induction 1 as [| ? ? ? ? ? ? ? ? ? labels ? ? ? IH | ? ? ? ? ? ? ? labels ? ? ? IH].
  - done.
  - rewrite IH, last_cons. by destruct (last labels).
  - rewrite IH, last_cons. by destruct (last labels).
Qed.

Lemma run_loop_chain fs overlays : ∀ st st',
  loop fs st overlays = inr st' →
  ∃ stages labels,
    filter_complex_list st' = filter_complex_list st ++ stages ∧
    chained (current_stream st) (filter_count st) stages labels (current_stream st').
Proof.
  induction overlays as [|overlay rest IH]; intros st st' H; simpl in H.
  - injection H as <-. exists [], []. rewrite app_nil_r. split; [done|constructor].
  - apply bind_inr in H as (st1 & Hbody & Hrest).
    apply IH in Hrest as (stages & labels & Hlist & Hchain).
    apply loop_body_iteration in Hbody. destruct Hbody; simpl in *.
    + exists stages, labels. split; [done|]. eapply chain_weaken; [|exact Hchain]. lia.
    + eexists (_ :: stages), (_ :: labels). rewrite Hlist, <- app_assoc. split; [done|].
      apply chain_text; [lia|done].
    + eexists (_ :: stages), (_ :: labels). rewrite Hlist, <- app_assoc. split; [done|].
      apply chain_image; [lia|done].
Qed.

(** *** Well-formed overlays with the asset in place *)

Lemma subscript_field (o : json) (k : string) :
  has_field o k = true → subscript o k = inr (field o k).
Proof.
  destruct o; simpl; try done. intros [v Hv]%bool_decide_eq_true.
  by rewrite Hv.
Qed.

Lemma eq_str_has_field (o : json) (k lit : string) :
  eq_str (field o k) lit = true → has_field o k = true.
Proof.
  destruct o; simpl; try done. by destruct (d !! k).
Qed.

Lemma is_str_has_field (o : json) (k : string) :
  is_str (field o k) = true → has_field o k = true.
Proof.
  destruct o; simpl; try done. by destruct (d !! k).
Qed.

Lemma get_field_or (o : json) (k k' : string) (dflt : json) :
  has_field o k' = true → get o k dflt = inr (field_or o k dflt).
Proof. by destruct o. Qed.

Lemma eq_str_exclusive (v : json) : eq_str v "text" = true → eq_str v "image" = false.
Proof.
  destruct v; simpl; try done. intros ->%String.eqb_eq. done.
Qed.

Lemma is_image_not_text (o : json) : is_image o = true → is_text o = false.
Proof.
  unfold is_image, is_text. intros H.
  destruct (eq_str (field o "type") "text") eqn:E.
  - apply eq_str_exclusive in E. rewrite E in H.
    by rewrite andb_false_r in H.
  - by rewrite andb_false_r.
Qed.

Lemma loop_body_text fs st o :
  is_text o = true →
  body fs st o =
  inr (LoopState (input_files st)
         (filter_complex_list st ++
            [text_stage (current_stream st)
               (text_filter (escape_quotes (content_of o))
                  (field_or o "x_pos" (JInt 50)) (field_or o "y_pos" (JInt 50))
                  (field o "start_time") (field o "end_time"))
               (new_stream_of (S (filter_count st)))])
         (new_stream_of (S (filter_count st)))
         (S (filter_count st)) (asset_input_index st)).
Proof.
  unfold is_text. intros H. repeat (apply andb_prop in H as [H ?]).
  unfold loop_body.
  rewrite !subscript_field by eauto using eq_str_has_field, is_str_has_field.
  simpl. replace (eq_str (field o "type") "text") with true.
  rewrite ?subscript_field by eauto using is_str_has_field. simpl.
  unfold content_of. destruct (field o "content") eqn:E; try done. simpl.
  by rewrite !(get_field_or o _ "start_time").
Qed.

Lemma loop_body_image fs st o :
  is_image o = true → logo ∈ fs →
  body fs st o =
  inr (LoopState (input_files st ++ ["-i"; logo])
         (filter_complex_list st ++
            [image_stage (scale_filter_of (asset_input_index st) (S (filter_count st)))
               (current_stream st) (scale_stream_of (S (filter_count st)))
               (overlay_filter (field o "start_time") (field o "end_time"))
               (new_stream_of (S (filter_count st)))])
         (new_stream_of (S (filter_count st)))
         (S (filter_count st)) (S (asset_input_index st))).
Proof.
  intros Himg Hin. pose proof (is_image_not_text _ Himg) as Hnt.
  unfold is_image in Himg. repeat (apply andb_prop in Himg as [Himg ?]).
  unfold loop_body.
  rewrite !subscript_field by eauto using eq_str_has_field.
  simpl. destruct (eq_str (field o "type") "text") eqn:E.
  { apply eq_str_exclusive in E. congruence. }
  rewrite ?subscript_field by eauto using eq_str_has_field.
  simpl. replace (eq_str (field o "type") "image") with true.
  by rewrite bool_decide_eq_true_2.
Qed.

Lemma loop_body_image_absent fs st o :
  is_image o = true → logo ∉ fs →
  body fs st o =
  inr (LoopState (input_files st) (filter_complex_list st) (current_stream st)
         (S (filter_count st)) (asset_input_index st)).
Proof.
  intros Himg Hin. pose proof (is_image_not_text _ Himg) as Hnt.
  unfold is_image in Himg. repeat (apply andb_prop in Himg as [Himg ?]).
  unfold loop_body.
  rewrite !subscript_field by eauto using eq_str_has_field.
  simpl. destruct (eq_str (field o "type") "text") eqn:E.
  { apply eq_str_exclusive in E. congruence. }
  rewrite ?subscript_field by eauto using eq_str_has_field.
  simpl. replace (eq_str (field o "type") "image") with true.
  by rewrite bool_decide_eq_false_2.
Qed.

(** An overlay of any other kind that carries both times is passed
    over: there is no [else] after the two branches. *)
Lemma loop_body_other_kind fs st o :
  has_field o "start_time" = true → has_field o "end_time" = true →
  has_field o "type" = true →
  eq_str (field o "type") "text" = false → eq_str (field o "type") "image" = false →
  body fs st o =
  inr (LoopState (input_files st) (filter_complex_list st) (current_stream st)
         (S (filter_count st)) (asset_input_index st)).
Proof.
  intros Hs He Ht Hnt Hni. unfold loop_body.
  rewrite !subscript_field by done. simpl. rewrite Hnt.
  rewrite ?subscript_field by done. simpl. by rewrite Hni.
Qed.

Lemma count_images_cons (o : json) (overlays : list json) :
  count_images (o :: overlays) = (if is_image o then 1 else 0) + count_images overlays.
Proof. unfold count_images. simpl. by destruct (is_image o). Qed.

Lemma run_loop_all_present fs overlays :
  logo ∈ fs → Forall well_formed overlays →
  ∀ st, ∃ st' more,
    loop fs st overlays = inr st' ∧
    filter_complex_list st' = filter_complex_list st ++ more ∧
    length more = length overlays ∧
    (∀ i o, overlays !! i = Some o →
       more !! i =
       Some (stage
               (match i with 0 => current_stream st | S _ => new_stream_of (filter_count st + i) end)
               (asset_input_index st + count_images (take i overlays))
               (filter_count st + S i) o)) ∧
    input_files st' =
      input_files st ++ concat (replicate (count_images overlays) ["-i"; logo]) ∧
    current_stream st' =
      match overlays with
      | [] => current_stream st
      | _ :: _ => new_stream_of (filter_count st + length overlays)
      end ∧
    filter_count st' = filter_count st + length overlays ∧
    asset_input_index st' = asset_input_index st + count_images overlays.
Proof.
  intros Hlogo Hwf. induction Hwf as [|o rest Ho _ IH]; intros st.
  - exists st, []. simpl. rewrite !app_nil_r, !Nat.add_0_r.
    repeat split; try done.
  - set (st1 :=
      if is_text o then
        LoopState (input_files st)
          (filter_complex_list st ++
             [stage (current_stream st) (asset_input_index st) (S (filter_count st)) o])
          (new_stream_of (S (filter_count st))) (S (filter_count st)) (asset_input_index st)
      else
        LoopState (input_files st ++ ["-i"; logo])
          (filter_complex_list st ++
             [stage (current_stream st) (asset_input_index st) (S (filter_count st)) o])
          (new_stream_of (S (filter_count st))) (S (filter_count st))
          (S (asset_input_index st))).
    assert (Hbody : body fs st o = inr st1).
    { subst st1. unfold stage_of. destruct Ho as [Ht|Hi].
      - rewrite Ht. by apply loop_body_text.
      - rewrite (is_image_not_text _ Hi). by apply loop_body_image. }
    assert (Hcnt : (if is_image o then 1 else 0) = (if is_text o then 0 else 1)).
    { destruct Ho as [Ht|Hi].
      - rewrite Ht. destruct (is_image o) eqn:Hi; [|done].
        apply is_image_not_text in Hi. congruence.
      - by rewrite Hi, (is_image_not_text _ Hi). }
    destruct (IH st1) as (st' & more & Hrun & Hlist & Hlen & Hat & Hin & Hcur & Hfc & Hai).
    exists st', (stage (current_stream st) (asset_input_index st)
                   (S (filter_count st)) o :: more).
    assert (Hfc1 : filter_count st1 = S (filter_count st)) by (subst st1; by destruct (is_text o)).
    assert (Hai1 : asset_input_index st1 =
                   asset_input_index st + (if is_image o then 1 else 0)).
    { rewrite Hcnt. subst st1. destruct (is_text o); simpl; lia. }
    assert (Hcur1 : current_stream st1 = new_stream_of (S (filter_count st)))
      by (subst st1; by destruct (is_text o)).
    repeat split.
    + simpl. by rewrite Hbody.
    + rewrite Hlist. subst st1. destruct (is_text o); simpl; by rewrite <- app_assoc.
    + simpl. by rewrite Hlen.
    + intros [|i] o' Hlook; simpl in *.
      * injection Hlook as <-. unfold count_images. simpl. by rewrite !Nat.add_0_r, Nat.add_1_r.
      * rewrite (Hat _ _ Hlook). rewrite count_images_cons, Hfc1, Hai1, Hcur1.
        f_equal. f_equal; [|lia..].
        destruct i; f_equal; lia.
    + rewrite Hin, count_images_cons, Hcnt. subst st1.
      destruct (is_text o); simpl; [done|]. by rewrite <- app_assoc.
    + rewrite Hcur, Hfc1, Hcur1. simpl. destruct rest; simpl; f_equal; lia.
    + rewrite Hfc, Hfc1. simpl. lia.
    + rewrite Hai, Hai1, count_images_cons. lia.
Qed.


Lemma get_inr_field_or (o : json) (k : string) (dflt v : json) :
  get o k dflt = inr v → v = field_or o k dflt.
Proof. destruct o; simpl; try done. by intros [= <-]. Qed.

Lemma replace_quote_inr (o : json) (k : string) (t : string) :
  replace_quote (field o k) = inr t →
  t = escape_quotes (match field o k with JStr s => s | _ => "" end).
Proof. destruct (field o k); simpl; try done. by intros [= <-]. Qed.

(** What an iteration that did not raise did, read off its overlay. *)
Lemma loop_body_applied fs st o st' :
  body fs st o = inr st' →
  (eq_str (field o "type") "text" = true ∧
   st' = LoopState (input_files st)
           (filter_complex_list st ++
              [text_stage (current_stream st)
                 (text_filter (escape_quotes (content_of o))
                    (field_or o "x_pos" (JInt 50)) (field_or o "y_pos" (JInt 50))
                    (field o "start_time") (field o "end_time"))
                 (new_stream_of (S (filter_count st)))])
           (new_stream_of (S (filter_count st)))
           (S (filter_count st)) (asset_input_index st)) ∨
  (eq_str (field o "type") "image" = true ∧ logo ∈ fs ∧
   st' = LoopState (input_files st ++ ["-i"; logo])
           (filter_complex_list st ++
              [image_stage (scale_filter_of (asset_input_index st) (S (filter_count st)))
                 (current_stream st) (scale_stream_of (S (filter_count st)))
                 (overlay_filter (field o "start_time") (field o "end_time"))
                 (new_stream_of (S (filter_count st)))])
           (new_stream_of (S (filter_count st)))
           (S (filter_count st)) (S (asset_input_index st))) ∨
  (eq_str (field o "type") "text" = false ∧
   (eq_str (field o "type") "image" = false ∨ logo ∉ fs) ∧
   st' = LoopState (input_files st) (filter_complex_list st) (current_stream st)
           (S (filter_count st)) (asset_input_index st)).
Proof.
  unfold loop_body. intros H.
  apply bind_inr in H as (start & [-> _]%subscript_inr_field & H).
  apply bind_inr in H as (end_ & [-> _]%subscript_inr_field & H).
  apply bind_inr in H as (ty & [-> _]%subscript_inr_field & H).
  destruct (eq_str (field o "type") "text") eqn:Ety.
  - left. split; [done|].
    apply bind_inr in H as (content & [-> _]%subscript_inr_field & H).
    apply bind_inr in H as (text_content & ->%replace_quote_inr & H).
    apply bind_inr in H as (x_pos & ->%get_inr_field_or & H).
    apply bind_inr in H as (y_pos & ->%get_inr_field_or & H).
    by injection H as <-.
  - right.
    apply bind_inr in H as (ty' & [-> _]%subscript_inr_field & H).
    destruct (eq_str (field o "type") "image") eqn:Ei.
    + destruct (bool_decide (logo ∈ fs)) eqn:El; simpl in H; injection H as <-.
      * left. apply bool_decide_eq_true in El. done.
      * right. apply bool_decide_eq_false in El. auto.
    + right. injection H as <-. auto.
Qed.

Lemma run_loop_applied fs overlays : ∀ st st',
  loop fs st overlays = inr st' →
  ∃ stages,
    filter_complex_list st' = filter_complex_list st ++ stages ∧
    in_order fs (current_stream st) (filter_count st) overlays stages (current_stream st').
Proof.
  induction overlays as [|o rest IH]; intros st st' H; simpl in H.
  - injection H as <-. exists []. rewrite app_nil_r. split; [done|constructor].
  - apply bind_inr in H as (st1 & Hbody & Hrest).
    apply IH in Hrest as (stages & Hlist & Happ).
    apply loop_body_applied in Hbody
      as [(Ht & ->)|[(Hi & Hl & ->)|(Ht & Hno & ->)]]; simpl in *.
    + eexists (_ :: stages). rewrite Hlist, <- app_assoc. split; [done|].
      by apply applied_text.
    + eexists (_ :: stages). rewrite Hlist, <- app_assoc. split; [done|].
      by apply applied_image.
    + exists stages. split; [done|]. by apply applied_skip.
Qed.


(** *** Escaping *)

Lemma escape_quotes_plain (s : string) :
  (∀ c, In c (list_ascii_of_string s) → c ≠ "'"%char) → escape_quotes s = s.
Proof.
  induction s as [|c s IH]; simpl; [done|]. intros H.
  destruct (Ascii.eqb_spec c "'") as [->|_].
  - exfalso. by apply (H "'"%char); [left|].
  - f_equal. apply IH. intros c' Hc'. apply H. by right.
Qed.

Lemma escape_quotes_app (s t : string) :
  escape_quotes (s +:+ t) = escape_quotes s +:+ escape_quotes t.
Proof.
  induction s as [|c s IH]; [done|]. rewrite app_cons. simpl.
  destruct (Ascii.eqb c "'"); rewrite ?app_cons; by rewrite IH.
Qed.


(** *** The command *)

Lemma run_loop_inputs fs overlays : ∀ st st',
  loop fs st overlays = inr st' →
  ∃ k, asset_input_index st' = asset_input_index st + k ∧
       input_files st' = input_files st ++ concat (replicate k ["-i"; logo]).
Proof.
  induction overlays as [|overlay rest IH]; intros st st' H; simpl in H.
  - injection H as <-. exists 0. simpl. by rewrite app_nil_r, Nat.add_0_r.
  - apply bind_inr in H as (st1 & Hbody & Hrest).
    apply IH in Hrest as (k & Hk & Hin).
    apply loop_body_iteration in Hbody. destruct Hbody; simpl in *.
    + by exists k.
    + by exists k.
    + exists (S k). split; [lia|]. by rewrite Hin, <- app_assoc.
Qed.

Lemma command_of_shape st video_path k output_path :
  input_files st = ["ffmpeg"; "-y"; "-i"; video_path] ++ concat (replicate k ["-i"; logo]) →
  command_of st output_path =
  command_shape ", " video_path (replicate k logo) (filter_complex_list st)
    (current_stream st) output_path.
Proof.
  intros Hin. unfold command_of, command_shape, filter_complex_string_of.
  by rewrite Hin, fmap_replicate, <- app_assoc.
Qed.

Lemma output_path_of_eq job_id :
  starts_with_sep job_id = false →
  output_path_of job_id = STORAGE_DIR +:+ "/" +:+ job_id +:+ "_final.mp4".
Proof.
  intros H. unfold output_path_of, path_join.
  destruct job_id as [|c rest]; [done|]. rewrite app_cons. simpl in *. by rewrite H.
Qed.

End CompilerFacts.

(** ** Facts about the background task *)

Section TaskFacts.

Variable repr_container : json → string.
Variable cwd : string.
Variable json_loads : string → option json.
Variable subprocess_run : list string → gset string → proc_outcome * gset string.

Local Abbreviation build := (build_command repr_container cwd json_loads).
Local Abbreviation task := (render_video_task repr_container cwd json_loads subprocess_run).
Local Abbreviation logo := (image_path cwd).
Local Abbreviation storage :=
  (storage_after_try repr_container cwd json_loads subprocess_run).
Local Abbreviation ok := (encoded_ok repr_container cwd json_loads subprocess_run).
Local Abbreviation outcome := (settled repr_container cwd json_loads subprocess_run).

Lemma difference_absent (fs : gset string) (p : string) : p ∉ fs → fs = fs ∖ {[p]}.
Proof.
  intros H. apply set_eq. intros x. rewrite elem_of_difference, elem_of_singleton.
  split; [|tauto]. intros Hx. split; [done|]. by intros ->.
Qed.

Lemma set_status_present w job_id s j :
  job_status w !! job_id = Some j →
  set_status job_id s w =
  (World (<[job_id := Job.Make s (Job.video_path j) (Job.metadata j) (Job.result_path j)]>
            (job_status w))
         (files w) (background_tasks w) (removed w), inr tt).
Proof. intros H. unfold set_status. by rewrite H. Qed.

Lemma set_status_absent w job_id s :
  job_status w !! job_id = None → set_status job_id s w = (w, inl KeyError).
Proof. intros H. unfold set_status. by rewrite H. Qed.

Lemma set_result_path_present w job_id p j :
  job_status w !! job_id = Some j →
  set_result_path job_id p w =
  (World (<[job_id := Job.Make (Job.status j) (Job.video_path j) (Job.metadata j) (Some p)]>
            (job_status w))
         (files w) (background_tasks w) (removed w), inr tt).
Proof. intros H. unfold set_result_path. by rewrite H. Qed.

Lemma remove_if_exists_eq p w :
  remove_if_exists p w =
  (World (job_status w) (files w ∖ {[p]}) (background_tasks w)
         ((if bool_decide (p ∈ files w) then [p] else []) ++ removed w), inr tt).
Proof.
  unfold remove_if_exists. case_bool_decide; [done|].
  destruct w as [js fs bt rm]. simpl in *. do 2 f_equal. by apply difference_absent.
Qed.

Lemma handler_eq job_id e : handler job_id e = set_status job_id FAILED.
Proof. by destruct e. Qed.

Lemma build_command_output fs job_id video_path metadata_str command output_path :
  build fs job_id video_path metadata_str = inr (command, output_path) →
  output_path = output_path_of job_id.
Proof.
  unfold build_command. intros Hb.
  apply bind_inr in Hb as (? & _ & Hb). apply bind_inr in Hb as (? & _ & Hb).
  apply bind_inr in Hb as (? & _ & Hb). apply bind_inr in Hb as (? & _ & Hb).
  by injection Hb as _ <-.
Qed.

Lemma task_outcome w job_id video_path metadata_str j0 :
  job_status w !! job_id = Some j0 →
  task job_id video_path metadata_str w
  = (outcome w job_id video_path metadata_str j0, inr tt).
Proof.
  intros Hj. unfold settled, storage_after_try, encoded_ok.
  unfold render_video_task, try_finally, try_except, try_body, mbind.
  rewrite (set_status_present _ _ _ _ Hj). cbn [files].
  destruct (build (files w) job_id video_path metadata_str) as [e|[command output_path]] eqn:Hb.
  - rewrite handler_eq. erewrite set_status_present by apply lookup_insert_eq.
    cbv beta iota delta [ret raise]. rewrite remove_if_exists_eq. cbn. by rewrite insert_insert_eq.
  - apply build_command_output in Hb as ->.
    unfold run_checked. cbn [files job_status background_tasks removed].
    destruct (subprocess_run command (files w)) as [[[|c|c]| |] fs'] eqn:Hrun; cbn [fst snd].
    + erewrite set_result_path_present by apply lookup_insert_eq.
      erewrite set_status_present by apply lookup_insert_eq.
      cbv beta iota delta [ret raise]. rewrite remove_if_exists_eq. cbn. by rewrite !insert_insert_eq.
    + cbv beta iota delta [ret raise handler].
      erewrite set_status_present by apply lookup_insert_eq.
      cbv beta iota delta [ret raise]. rewrite remove_if_exists_eq. cbn. by rewrite insert_insert_eq.
    + cbv beta iota delta [ret raise handler].
      erewrite set_status_present by apply lookup_insert_eq.
      cbv beta iota delta [ret raise]. rewrite remove_if_exists_eq. cbn. by rewrite insert_insert_eq.
    + cbv beta iota delta [ret raise handler].
      erewrite set_status_present by apply lookup_insert_eq.
      cbv beta iota delta [ret raise]. rewrite remove_if_exists_eq. cbn. by rewrite insert_insert_eq.
    + cbv beta iota delta [ret raise handler].
      erewrite set_status_present by apply lookup_insert_eq.
      cbv beta iota delta [ret raise]. rewrite remove_if_exists_eq. cbn. by rewrite insert_insert_eq.
Qed.

(** The task on a job id that is not in the map: the [KeyError] of line
    28 is raised again by the handler and leaves the task, after the
    clean-up. *)
Lemma task_outcome_absent w job_id video_path metadata_str :
  job_status w !! job_id = None →
  task job_id video_path metadata_str w
  = (World (job_status w) (files w ∖ {[video_path]}) (background_tasks w)
       ((if bool_decide (video_path ∈ files w) then [video_path] else []) ++ removed w),
     inl KeyError).
Proof.
  intros Hj. unfold render_video_task, try_finally, try_except, try_body, mbind.
  rewrite (set_status_absent _ _ _ Hj). cbn [handler].
  rewrite (set_status_absent _ _ _ Hj). cbv beta iota delta [ret raise]. by rewrite remove_if_exists_eq.
Qed.

Lemma encoded_ok_true w job_id video_path metadata_str :
  ok w job_id video_path metadata_str = true ↔
  ∃ command output_path,
    build (files w) job_id video_path metadata_str = inr (command, output_path) ∧
    (subprocess_run command (files w)).1 = Exited 0.
Proof.
  unfold encoded_ok.
  destruct (build (files w) job_id video_path metadata_str) as [e|[command output_path]].
  - split; [done|]. by intros (? & ? & ? & _).
  - rewrite bool_decide_eq_true. split; [eauto|]. by intros (? & ? & [= <- <-] & ?).
Qed.

(** The clean-up runs whatever happened before it. *)
Lemma input_gone w job_id video_path metadata_str :
  video_path ∉ files (task job_id video_path metadata_str w).1.
Proof.
  destruct (job_status w !! job_id) as [j0|] eqn:Hj.
  - rewrite (task_outcome _ _ _ _ _ Hj). simpl.
    rewrite elem_of_difference, elem_of_singleton. tauto.
  - rewrite (task_outcome_absent _ _ _ _ Hj). simpl.
    rewrite elem_of_difference, elem_of_singleton. tauto.
Qed.

Lemma task_job_record w job_id video_path metadata_str j0 :
  job_status w !! job_id = Some j0 →
  job_status (task job_id video_path metadata_str w).1 !! job_id =
  Some (if ok w job_id video_path metadata_str
        then Job.Make COMPLETE (Job.video_path j0) (Job.metadata j0)
               (Some (output_path_of job_id))
        else Job.Make FAILED (Job.video_path j0) (Job.metadata j0) (Job.result_path j0)).
Proof.
  intros Hj. rewrite (task_outcome _ _ _ _ _ Hj). unfold settled. cbn [fst job_status].
  by rewrite lookup_insert_eq.
Qed.

(** C2 (amended).  For a job in the map, the task leaves status
    [COMPLETE] only after the command was built and [subprocess.run]
    returned with the encoder's exit code 0 (whether the output file
    exists is not looked at); with that status [result_path] is the
    output path. *)
Theorem complete_only_after_encoder_success w job_id video_path metadata_str j0 :
  job_status w !! job_id = Some j0 →
  ∃ j,
    job_status (task job_id video_path metadata_str w).1 !! job_id = Some j ∧
    (Job.status j = COMPLETE →
       (∃ command output_path,
          build (files w) job_id video_path metadata_str = inr (command, output_path) ∧
          (subprocess_run command (files w)).1 = Exited 0) ∧
       Job.result_path j = Some (output_path_of job_id)).
Proof.
  intros Hj. rewrite (task_job_record _ _ _ _ _ Hj). eexists. split; [done|].
  rewrite <- encoded_ok_true.
  destruct (ok w job_id video_path metadata_str); simpl; [done|].
  intros [=].
Qed.

(** C3 (amended).  The command is [ffmpeg -y -i <input>], one
    [-i <logo>] per registered image, [-filter_complex] followed by the
    entries of the filter list joined with a comma and a space, then
    [-map <final> -map 0:a? -c:v libx264 -crf 23 -preset veryfast
    -c:a aac -b:a 192k <output>]; for a job id that does not begin with
    a slash the output path is [rendered_videos/<job_id>_final.mp4]. *)
Theorem command_has_shape fs job_id video_path metadata_str command output_path :
  build fs job_id video_path metadata_str = inr (command, output_path) →
  starts_with_sep job_id = false →
  ∃ metadata overlays items st,
    json_loads metadata_str = Some metadata ∧
    get metadata "overlays" (JList []) = inr overlays ∧
    iter overlays = inr items ∧
    run_loop repr_container cwd fs (init_state video_path) items = inr st ∧
    command =
      command_shape ", " video_path (replicate (asset_input_index st - 1) logo)
        (filter_complex_list st) (current_stream st) output_path ∧
    output_path = STORAGE_DIR +:+ "/" +:+ job_id +:+ "_final.mp4".
Proof.
  intros Hb Hid. unfold build_command in Hb.
  apply bind_inr in Hb as (metadata & Hloads & Hb).
  apply bind_inr in Hb as (overlays & Hget & Hb).
  apply bind_inr in Hb as (items & Hiter & Hb).
  apply bind_inr in Hb as (st & Hloop & Hb).
  injection Hb as <- <-.
  exists metadata, overlays, items, st.
  destruct (json_loads metadata_str) as [v|]; [|done]. injection Hloads as ->.
  destruct (run_loop_inputs _ _ _ _ _ _ Hloop) as (k & Hk & Hin). simpl in Hk, Hin.
  repeat split; try done.
  - replace (asset_input_index st - 1) with k by lia.
    by apply command_of_shape.
  - by apply output_path_of_eq.
Qed.

(** C9.  The uploaded file being on storage when the task starts, and
    the encoder leaving its input in place, every run of the task
    (whether it ends [COMPLETE], [FAILED], or with the exception of a
    job id missing from the map) calls [os.remove] on the input path
    exactly once and leaves no file under that path. *)
Theorem input_deleted_once w job_id video_path metadata_str :
  video_path ∈ files w →
  (∀ command fs, video_path ∈ fs → video_path ∈ (subprocess_run command fs).2) →
  (video_path ∉ files (task job_id video_path metadata_str w).1) ∧
  removed (task job_id video_path metadata_str w).1 = video_path :: removed w.
Proof.
  intros Hin Hkeep. split; [apply input_gone|].
  destruct (job_status w !! job_id) as [j0|] eqn:Hj.
  - rewrite (task_outcome _ _ _ _ _ Hj). unfold settled. cbn [fst removed].
    rewrite bool_decide_eq_true_2; [done|].
    unfold storage_after_try.
    destruct (build (files w) job_id video_path metadata_str) as [e|[command out]]; auto.
  - rewrite (task_outcome_absent _ _ _ _ Hj). cbn [fst removed].
    by rewrite bool_decide_eq_true_2.
Qed.

End TaskFacts.

(** ** Facts about the upload endpoint *)

(** C1 (amended).  Submission never looks at the overlays: whatever
    the metadata text, once the upload is written the job record exists
    in state [PENDING] with the text stored as received, the task is
    scheduled and the answer is the job id; the only failing submission
    is one whose upload could not be written, which answers 500 and
    leaves the job map as it was. *)
Theorem upload_never_validates w job_id filename metadata :
  let saved := upload_video job_id filename metadata true w in
  let failed := upload_video job_id filename metadata false w in
  job_status saved.1 !! job_id
    = Some (Job.Make PENDING (temp_video_path_of job_id filename) metadata None) ∧
  last (background_tasks saved.1)
    = Some (TaskArgs job_id (temp_video_path_of job_id filename) metadata) ∧
  saved.2 = Accepted job_id PENDING ∧
  failed.2 = HTTPError 500 ∧
  job_status failed.1 = job_status w ∧
  background_tasks failed.1 = background_tasks w.
Proof.
  unfold upload_video. simpl. rewrite lookup_insert_eq, last_snoc. done.
Qed.

Lemma temp_video_path_of_eq job_id filename :
  starts_with_sep job_id = false →
  temp_video_path_of job_id filename = STORAGE_DIR +:+ "/" +:+ job_id +:+ "_" +:+ filename.
Proof.
  intros H. unfold temp_video_path_of, path_join.
  destruct job_id as [|c rest]; [done|]. rewrite app_cons. simpl in *. by rewrite H.
Qed.

Lemma no_sep_starts job_id : no_sep job_id = true → starts_with_sep job_id = false.
Proof.
  destruct job_id as [|c rest]; simpl; [done|].
  intros [H _]%andb_prop. by apply negb_true_iff.
Qed.

Lemma no_sep_app (s t : string) : no_sep s = true → no_sep t = true → no_sep (s +:+ t) = true.
Proof.
  intros Hs Ht. induction s as [|c s IH]; [done|]. rewrite app_cons. simpl in *.
  apply andb_prop in Hs as [Hc Hs]. rewrite Hc. by apply IH.
Qed.

Lemma components_app_sep (s rest : string) :
  no_sep s = true → components (s +:+ String "/" rest) = s :: components rest.
Proof.
  induction s as [|c s IH]; intros H.
  - done.
  - rewrite app_cons. simpl in *. apply andb_prop in H as [Hc Hs].
    apply negb_true_iff in Hc. rewrite Hc, (IH Hs). done.
Qed.

Lemma underscore_suffix_not_dots (s : string) :
  String.eqb (s +:+ "_") "" = false ∧
  String.eqb (s +:+ "_") "." = false ∧
  String.eqb (s +:+ "_") ".." = false.
Proof.
  repeat split; apply String.eqb_neq; destruct s as [|a [|b s]];
    rewrite ?app_cons, ?app_empty_l; try discriminate.
  intros [= _ _ H]. destruct s; discriminate.
Qed.

Lemma normalize_push initial_slashes kept comp rest :
  String.eqb comp "" = false → String.eqb comp "." = false → String.eqb comp ".." = false →
  normalize initial_slashes kept (comp :: rest) = normalize initial_slashes (comp :: kept) rest.
Proof. intros H1 H2 H3. simpl. by rewrite H1, H2, H3. Qed.

Lemma normalize_pop initial_slashes top kept rest :
  String.eqb top ".." = false →
  normalize initial_slashes (top :: kept) (".." :: rest) = normalize initial_slashes kept rest.
Proof.
  intros H. apply String.eqb_neq in H. cbn [normalize].
  change (String.eqb ".." "") with false. change (String.eqb ".." ".") with false.
  change (String.eqb ".." "..") with true. cbn [orb negb head tail].
  rewrite andb_false_r, (bool_decide_eq_false_2 (Some top = Some "..")) by congruence.
  done.
Qed.

(** The file name [/../../etc/passwd]: read as text, the temporary path
    leads out of the storage directory. *)
Lemma traversal_resolves_outside job_id :
  no_sep job_id = true →
  resolved ("rendered_videos/" +:+ job_id +:+ "_/../../etc/passwd") = ["etc"; "passwd"] ∧
  inside_storage ("rendered_videos/" +:+ job_id +:+ "_/../../etc/passwd") = false.
Proof.
  intros Hid.
  assert (Hres : resolved ("rendered_videos/" +:+ job_id +:+ "_/../../etc/passwd")
                 = ["etc"; "passwd"]).
  { unfold resolved.
    change ("rendered_videos/" +:+ job_id +:+ "_/../../etc/passwd")
      with ("rendered_videos" +:+ String "/" (job_id +:+ "_/../../etc/passwd")).
    rewrite components_app_sep by done.
    change (job_id +:+ "_/../../etc/passwd")
      with (job_id +:+ ("_" +:+ String "/" "../../etc/passwd")).
    rewrite <- app_assoc_str, components_app_sep by (by apply no_sep_app).
    destruct (underscore_suffix_not_dots job_id) as (He & Hd & Hdd).
    change (components "../../etc/passwd") with [".."; ".."; "etc"; "passwd"].
    rewrite !normalize_push by done.
    rewrite !normalize_pop by done.
    by rewrite !normalize_push by done. }
  split; [done|]. unfold inside_storage. by rewrite Hres.
Qed.

(** ** Concrete runs *)

Lemma absent_by_evaluation (p : string) (fs : gset string) :
  bool_decide (p ∈ fs) = false → p ∉ fs.
Proof. apply bool_decide_eq_false_1. Qed.

Lemma present_by_evaluation (p : string) (fs : gset string) :
  bool_decide (p ∈ fs) = true → p ∈ fs.
Proof. apply bool_decide_eq_true_1. Qed.

Lemma differ_by_evaluation (a b : list string) : bool_decide (a = b) = false → a ≠ b.
Proof. apply bool_decide_eq_false_1. Qed.

(** A submission with an overlay of kind [sticker] is accepted and its
    job record created, although the overlay is no entry of the data
    model. *)
Lemma sticker_submission_creates_job :
  overlays_valid Demo.loads Demo.doc_sticker = false ∧
  (upload_video Demo.job_id "clip.mp4" Demo.doc_sticker true Demo.empty_world).2
    = Accepted Demo.job_id PENDING ∧
  job_status (upload_video Demo.job_id "clip.mp4" Demo.doc_sticker true Demo.empty_world).1
    !! Demo.job_id
    = Some (Job.Make PENDING Demo.clip Demo.doc_sticker None).
Proof. repeat split; vm_compute; reflexivity. Qed.

(** The task then passes over the sticker and the job ends [COMPLETE]. *)
Example sticker_job_completes :
  job_status
    (render_video_task Demo.no_repr Demo.cwd Demo.loads Demo.encoder_ok
       Demo.job_id Demo.clip Demo.doc_sticker (Demo.uploaded Demo.doc_sticker)).1
    !! Demo.job_id
  = Some (Job.Make COMPLETE Demo.clip Demo.doc_sticker (Some Demo.final)).
Proof. vm_compute. reflexivity. Qed.

(** With an encoder that exits with 0 and writes nothing the job ends
    [COMPLETE] with a [result_path] under which there is no file. *)
Lemma complete_without_output_file :
  job_status
    (render_video_task Demo.no_repr Demo.cwd Demo.loads Demo.encoder_silent
       Demo.job_id Demo.clip Demo.doc_text_image (Demo.uploaded Demo.doc_text_image)).1
    !! Demo.job_id
  = Some (Job.Make COMPLETE Demo.clip Demo.doc_text_image (Some Demo.final)) ∧
  Demo.final ∉
    files
      (render_video_task Demo.no_repr Demo.cwd Demo.loads Demo.encoder_silent
         Demo.job_id Demo.clip Demo.doc_text_image (Demo.uploaded Demo.doc_text_image)).1.
Proof.
  split; [vm_compute; reflexivity|].
  apply absent_by_evaluation. vm_compute. reflexivity.
Qed.

Lemma complete_only_after_encoder_success_witness :
  job_status (Demo.uploaded Demo.doc_text_image) !! Demo.job_id
    = Some (Job.Make PENDING Demo.clip Demo.doc_text_image None) ∧
  ∃ j,
    job_status
      (render_video_task Demo.no_repr Demo.cwd Demo.loads Demo.encoder_ok
         Demo.job_id Demo.clip Demo.doc_text_image (Demo.uploaded Demo.doc_text_image)).1
      !! Demo.job_id = Some j ∧
    Job.status j = COMPLETE ∧
    Job.result_path j = Some (output_path_of Demo.job_id).
Proof.
  assert (Hj : job_status (Demo.uploaded Demo.doc_text_image) !! Demo.job_id
               = Some (Job.Make PENDING Demo.clip Demo.doc_text_image None))
    by (vm_compute; reflexivity).
  split; [exact Hj|].
  destruct (complete_only_after_encoder_success Demo.no_repr Demo.cwd Demo.loads
              Demo.encoder_ok _ _ Demo.clip Demo.doc_text_image _ Hj) as (j & Hlook & Honly).
  assert (Hc : Job.status j = COMPLETE).
  { assert (Hv : job_status
        (render_video_task Demo.no_repr Demo.cwd Demo.loads Demo.encoder_ok
           Demo.job_id Demo.clip Demo.doc_text_image (Demo.uploaded Demo.doc_text_image)).1
        !! Demo.job_id
      = Some (Job.Make COMPLETE Demo.clip Demo.doc_text_image (Some Demo.final)))
      by (vm_compute; reflexivity).
    rewrite Hv in Hlook. by injection Hlook as <-. }
  exists j. split; [exact Hlook|]. split; [exact Hc|]. exact (proj2 (Honly Hc)).
Defined.

(** Two Text overlays: the filter graph argument joins the two stages
    with a comma and a space, so the command is not the one of the
    interface description. *)
Lemma stages_joined_by_comma :
  ∃ st command,
    run_loop Demo.no_repr Demo.cwd ∅ (init_state Demo.clip) [Demo.text_hi; Demo.text_yo]
      = inr st ∧
    build_command Demo.no_repr Demo.cwd Demo.loads ∅ Demo.job_id Demo.clip Demo.doc_two_texts
      = inr (command, Demo.final) ∧
    filter_complex_list st =
      ["[0:v]drawtext=text='Hi':fontfile='/app/assets/Arial.ttf':fontcolor=yellow:fontsize=48:x=50:y=50:enable='between(t,0,2)'[v1]";
       "[v1]drawtext=text='Yo':fontfile='/app/assets/Arial.ttf':fontcolor=yellow:fontsize=48:x=10:y=20:enable='between(t,2,3)'[v2]"] ∧
    graph_argument command = Some (String.concat ", " (filter_complex_list st)) ∧
    command ≠ spec_command Demo.clip [] (filter_complex_list st) (current_stream st) Demo.final.
Proof.
  eexists _, _. split; [vm_compute; reflexivity|].
  split; [vm_compute; reflexivity|].
  split; [vm_compute; reflexivity|].
  split; [vm_compute; reflexivity|].
  apply differ_by_evaluation. vm_compute. reflexivity.
Qed.

Lemma command_has_shape_witness :
  starts_with_sep Demo.job_id = false ∧
  ∃ command st,
    build_command Demo.no_repr Demo.cwd Demo.loads {[Demo.logo]} Demo.job_id Demo.clip
      Demo.doc_text_image = inr (command, Demo.final) ∧
    command =
      command_shape ", " Demo.clip
        (replicate (asset_input_index st - 1) (image_path Demo.cwd))
        (filter_complex_list st) (current_stream st) Demo.final ∧
    Demo.final = STORAGE_DIR +:+ "/" +:+ Demo.job_id +:+ "_final.mp4".
Proof.
  assert (Hid : starts_with_sep Demo.job_id = false) by reflexivity.
  split; [exact Hid|].
  assert (Hb : ∃ command,
    build_command Demo.no_repr Demo.cwd Demo.loads {[Demo.logo]} Demo.job_id Demo.clip
      Demo.doc_text_image = inr (command, Demo.final)).
  { eexists. vm_compute. reflexivity. }
  destruct Hb as [command Hb].
  destruct (command_has_shape Demo.no_repr Demo.cwd Demo.loads _ _ _ _ _ _ Hb Hid)
    as (metadata & overlays & items & st & _ & _ & _ & _ & Hcmd & Hout).
  exists command, st. auto.
Defined.





Lemma input_deleted_once_witness :
  let w := Demo.uploaded Demo.doc_text_image in
  Demo.clip ∈ files w ∧
  (∀ command fs, Demo.clip ∈ fs → Demo.clip ∈ (Demo.encoder_fails command fs).2) ∧
  (Demo.clip ∉
     files (render_video_task Demo.no_repr Demo.cwd Demo.loads Demo.encoder_fails
              Demo.job_id Demo.clip Demo.doc_text_image w).1) ∧
  removed (render_video_task Demo.no_repr Demo.cwd Demo.loads Demo.encoder_fails
             Demo.job_id Demo.clip Demo.doc_text_image w).1 = [Demo.clip].
Proof.
  intros w.
  assert (Hin : Demo.clip ∈ files w) by (apply present_by_evaluation; vm_compute; reflexivity).
  assert (Hkeep : ∀ command fs,
    Demo.clip ∈ fs → Demo.clip ∈ (Demo.encoder_fails command fs).2)
    by (intros command fs H; exact H).
  split; [exact Hin|]. split; [exact Hkeep|].
  exact (input_deleted_once Demo.no_repr Demo.cwd Demo.loads Demo.encoder_fails
           w Demo.job_id Demo.clip Demo.doc_text_image Hin Hkeep).
Defined.

(** C6.  The metadata [{"overlays": []}]: the loop leaves no entry and
    the primary stream [[0:v]] in the cursor, and the command that is
    built still carries [-filter_complex], followed by the empty text,
    and maps [[0:v]]; it is not a command that tolerates an empty filter
    graph. *)
Theorem empty_overlays_command :
  run_loop Demo.no_repr Demo.cwd ∅ (init_state Demo.clip) []
    = inr (LoopState ["ffmpeg"; "-y"; "-i"; Demo.clip] [] "[0:v]" 0 1) ∧
  build_command Demo.no_repr Demo.cwd Demo.loads ∅ Demo.job_id Demo.clip Demo.doc_empty
    = inr (["ffmpeg"; "-y"; "-i"; Demo.clip;
            "-filter_complex"; "";
            "-map"; "[0:v]"; "-map"; "0:a?";
            "-c:v"; "libx264"; "-crf"; "23"; "-preset"; "veryfast";
            "-c:a"; "aac"; "-b:a"; "192k"; Demo.final],
           Demo.final) ∧
  tolerates_empty_graph
    (command_of (LoopState ["ffmpeg"; "-y"; "-i"; Demo.clip] [] "[0:v]" 0 1) Demo.final)
    = false.
Proof. repeat split; vm_compute; reflexivity. Qed.

(** ** More about the overlay loop *)

Section LoopFacts.

Variable repr_container : json → string.
Variable cwd : string.

Local Abbreviation body := (loop_body repr_container cwd).
Local Abbreviation loop := (run_loop repr_container cwd).
Local Abbreviation logo := (image_path cwd).

Local Ltac step_bind := cbv beta iota delta [Py.bind Py.ret Py.raise].

Lemma loop_body_accepted fs st o :
  accepted o = true → ∃ st', body fs st o = inr st'.
Proof.
  unfold accepted. intros H. repeat (apply andb_prop in H as [H ?]).
  unfold loop_body.
  destruct (eq_str (field o "type") "text") eqn:Et; simpl in *.
  - assert (Hc : has_field o "content" = true) by by apply is_str_has_field.
    rewrite !subscript_field by done. simpl. rewrite Et.
    destruct (field o "content"); try done. simpl.
    rewrite !(get_field_or o _ "start_time") by done. simpl. eauto.
  - rewrite !subscript_field by done. simpl. rewrite Et.
    destruct (eq_str (field o "type") "image"); [|eauto].
    destruct (negb (bool_decide (logo ∈ fs))); eauto.
Qed.

Lemma loop_body_rejected o :
  accepted o = false →
  ∃ e, (∀ fs' st', body fs' st' o = inl e) ∧
       (e = KeyError ∨ e = TypeError ∨ e = AttributeError).
Proof.
  unfold accepted. intros H. destruct o;
    try (exists TypeError; split; [done|auto]).
  unfold loop_body.
  destruct (has_field (JDict d) "start_time") eqn:Hs.
  2:{ exists KeyError. split; [|auto]. intros fs' st'. simpl in *.
      by destruct (d !! "start_time"). }
  destruct (has_field (JDict d) "end_time") eqn:He.
  2:{ exists KeyError. split; [|auto]. intros fs' st'.
      rewrite subscript_field by done. simpl in *.
      by destruct (d !! "end_time"). }
  destruct (has_field (JDict d) "type") eqn:Ht.
  2:{ exists KeyError. split; [|auto]. intros fs' st'.
      rewrite !subscript_field by done. simpl in *.
      by destruct (d !! "type"). }
  cbn [andb] in H.
  destruct (eq_str (field (JDict d) "type") "text") eqn:Ety; [|done]. cbn [negb orb] in H.
  destruct (has_field (JDict d) "content") eqn:Hc.
  - exists AttributeError. split; [|auto]. intros fs' st'.
    rewrite !subscript_field by done. step_bind. rewrite Ety. step_bind.
    by destruct (field (JDict d) "content").
  - exists KeyError. split; [|auto]. intros fs' st'.
    rewrite !subscript_field by done. step_bind. rewrite Ety. simpl in *.
    by destruct (d !! "content").
Qed.

(** X1.  Whether an iteration gets through depends on the overlay
    alone: it does when the overlay is a dict with [start_time],
    [end_time] and [type], and with a string [content] if the type is
    [text]; otherwise it raises one and the same [KeyError], [TypeError]
    or [AttributeError] whatever the storage and the loop state. *)
Theorem overlay_acceptance fs st o :
  if accepted o
  then ∃ st', body fs st o = inr st'
  else ∃ e, (∀ fs' st', body fs' st' o = inl e) ∧
            (e = KeyError ∨ e = TypeError ∨ e = AttributeError).
Proof.
  destruct (accepted o) eqn:H.
  - by apply loop_body_accepted.
  - by apply loop_body_rejected.
Qed.

Lemma run_loop_app_eq fs l1 l2 : ∀ st,
  loop fs st (l1 ++ l2) = Py.bind (loop fs st l1) (λ st1, loop fs st1 l2).
Proof.
  induction l1 as [|o l1 IH]; intros st; simpl; [done|].
  destruct (body fs st o) as [e|st1]; simpl; [done|]. apply IH.
Qed.

(** X2.  The loop gets through a list exactly when it gets through
    each overlay of it. *)
Theorem run_loop_succeeds_iff fs st overlays :
  (∃ st', loop fs st overlays = inr st') ↔ forallb accepted overlays = true.
Proof.
  revert st. induction overlays as [|o rest IH]; intros st; simpl.
  - split; eauto.
  - split.
    + intros (st' & H). apply bind_inr in H as (st1 & Hb & Hr).
      apply andb_true_intro. split; [|apply (IH st1); eauto].
      destruct (accepted o) eqn:Ha; [done|].
      destruct (loop_body_rejected o Ha) as (e & He & _).
      rewrite He in Hb. done.
    + intros [Ha Hr]%andb_prop.
      destruct (loop_body_accepted fs st o Ha) as (st1 & Hb).
      rewrite Hb. simpl. by apply IH.
Qed.

(** X3.  Running the loop over two lists in a row is running it over
    the first and, if that did not raise, over the second from the state
    reached; an exception of the first list is the exception of the
    whole. *)
Theorem run_loop_app fs st l1 l2 :
  run_loop repr_container cwd fs st (l1 ++ l2) =
  match run_loop repr_container cwd fs st l1 with
  | inl e => inl e
  | inr st1 => run_loop repr_container cwd fs st1 l2
  end.
Proof. rewrite run_loop_app_eq. by destruct (loop fs st l1). Qed.

End LoopFacts.

(** ** An image overlay met while the logo is absent *)

Section SkippedAsset.

Variable repr_container : json → string.
Variable cwd : string.
Variable json_loads : string → option json.
Variable subprocess_run : list string → gset string → proc_outcome * gset string.

Local Abbreviation body := (loop_body repr_container cwd).
Local Abbreviation loop := (run_loop repr_container cwd).
Local Abbreviation logo := (image_path cwd).
Local Abbreviation build := (build_command repr_container cwd json_loads).
Local Abbreviation task := (render_video_task repr_container cwd json_loads subprocess_run).

Lemma run_loop_accepted fs overlays : ∀ st,
  forallb accepted overlays = true → ∃ st', loop fs st overlays = inr st'.
Proof.
  induction overlays as [|o rest IH]; intros st H; simpl in *; [eauto|].
  apply andb_prop in H as [Ho Hrest].
  destruct (loop_body_accepted repr_container cwd fs st o Ho) as (st1 & ->).
  simpl. by apply IH.
Qed.

(** With the logo absent no overlay registers an input, and overlays
    none of which is of type [text] leave the filter list and the
    cursor as they were. *)
Lemma run_loop_logo_absent fs overlays : ∀ st st',
  logo ∉ fs →
  loop fs st overlays = inr st' →
  input_files st' = input_files st ∧
  (count_text overlays = 0 →
   filter_complex_list st' = filter_complex_list st ∧
   current_stream st' = current_stream st).
Proof.
  induction overlays as [|o rest IH]; intros st st' Hlogo H; simpl in H.
  - by injection H as <-.
  - apply bind_inr in H as (st1 & Hbody & Hrest).
    destruct (IH _ _ Hlogo Hrest) as [Hin Hno].
    unfold count_text in *. cbn [List.filter].
    apply loop_body_applied in Hbody as [(Ht & ->)|[(Hi & Hl & ->)|(Ht & _ & ->)]];
      cbn [input_files filter_complex_list current_stream] in *.
    + split; [done|]. by rewrite Ht.
    + done.
    + split; [done|]. by rewrite Ht.
Qed.


End SkippedAsset.



Section LoopAccounting.

Variable repr_container : json → string.
Variable cwd : string.

Local Abbreviation body := (loop_body repr_container cwd).
Local Abbreviation loop := (run_loop repr_container cwd).
Local Abbreviation logo := (image_path cwd).
Local Abbreviation indexed := (aux_indexed repr_container cwd).

(** What an iteration that did not raise added, read off the overlay
    and the storage. *)
Lemma loop_body_adds fs st o st' :
  body fs st o = inr st' →
  let image := is_image o && bool_decide (logo ∈ fs) in
  let text := eq_str (field o "type") "text" in
  filter_count st' = S (filter_count st) ∧
  length (filter_complex_list st') =
    length (filter_complex_list st) + (if text then 1 else 0) + (if image then 1 else 0) ∧
  asset_input_index st' = asset_input_index st + (if image then 1 else 0) ∧
  input_files st' = input_files st ++ (if image then ["-i"; logo] else []).
Proof.
  unfold loop_body, is_image. intros H.
  apply bind_inr in H as (start & [-> Hs]%subscript_inr_field & H).
  apply bind_inr in H as (end_ & [-> He]%subscript_inr_field & H).
  apply bind_inr in H as (ty & [-> Ht]%subscript_inr_field & H).
  rewrite Hs, He. cbn [andb].
  destruct (eq_str (field o "type") "text") eqn:Ety.
  - rewrite (eq_str_exclusive _ Ety). cbn [andb].
    apply bind_inr in H as (content & _ & H).
    apply bind_inr in H as (text_content & _ & H).
    apply bind_inr in H as (x_pos & _ & H).
    apply bind_inr in H as (y_pos & _ & H).
    injection H as <-. simpl. rewrite length_app, app_nil_r. simpl. repeat split; lia.
  - apply bind_inr in H as (ty' & [-> _]%subscript_inr_field & H).
    destruct (eq_str (field o "type") "image") eqn:Ei; cbn [andb].
    + destruct (bool_decide (logo ∈ fs)) eqn:El; simpl in H; injection H as <-; simpl.
      * rewrite length_app. simpl. repeat split; lia.
      * rewrite app_nil_r. repeat split; lia.
    + injection H as <-. simpl. rewrite app_nil_r. repeat split; lia.
Qed.

Lemma count_text_cons (o : json) (overlays : list json) :
  count_text (o :: overlays) =
  (if eq_str (field o "type") "text" then 1 else 0) + count_text overlays.
Proof. unfold count_text. simpl. by destruct (eq_str (field o "type") "text"). Qed.

Lemma run_loop_adds fs overlays : ∀ st st',
  loop fs st overlays = inr st' →
  let images := if bool_decide (logo ∈ fs) then count_images overlays else 0 in
  filter_count st' = filter_count st + length overlays ∧
  length (filter_complex_list st') =
    length (filter_complex_list st) + count_text overlays + images ∧
  asset_input_index st' = asset_input_index st + images ∧
  input_files st' = input_files st ++ concat (replicate images ["-i"; logo]).
Proof.
  induction overlays as [|o rest IH]; intros st st' H; simpl in H.
  - injection H as <-. cbn zeta. unfold count_images, count_text. simpl.
    destruct (bool_decide (logo ∈ fs)); simpl; rewrite app_nil_r; repeat split; lia.
  - apply bind_inr in H as (st1 & Hb & Hr).
    apply loop_body_adds in Hb as (Hfc & Hlen & Hai & Hin).
    apply IH in Hr as (Hfc' & Hlen' & Hai' & Hin').
    cbn zeta in *. rewrite count_images_cons, count_text_cons.
    rewrite Hfc', Hlen', Hai', Hin', Hfc, Hlen, Hai, Hin. simpl.
    destruct (bool_decide (logo ∈ fs)); destruct (is_image o); simpl;
      rewrite ?app_nil_r, <- ?app_assoc; repeat split; try done; lia.
Qed.

(** X4.  When the loop ends without raising, the filter count is the
    number of overlays (skipped ones included), the filter list has one
    entry per overlay of kind [text] and, if the logo is on storage, one
    per Image overlay, the auxiliary index is one more than the images
    registered, and the inputs are the primary input followed by one
    [-i logo] pair per image registered. *)
Theorem loop_accounting fs video_path overlays st :
  loop fs (init_state video_path) overlays = inr st →
  let images := if bool_decide (logo ∈ fs) then count_images overlays else 0 in
  filter_count st = length overlays ∧
  length (filter_complex_list st) = count_text overlays + images ∧
  asset_input_index st = 1 + images ∧
  input_files st =
    ["ffmpeg"; "-y"; "-i"; video_path] ++ concat (replicate images ["-i"; logo]).
Proof. intros H. by apply run_loop_adds in H. Qed.

Lemma aux_indexed_app k stages k' more k'' :
  indexed k stages k' → indexed k' more k'' → indexed k (stages ++ more) k''.
Proof.
  induction 1; intros Hm; simpl; [done|..]; constructor; auto.
Qed.

Lemma run_loop_aux_indexed fs overlays : ∀ st st',
  loop fs st overlays = inr st' →
  ∃ stages,
    filter_complex_list st' = filter_complex_list st ++ stages ∧
    indexed (asset_input_index st) stages (asset_input_index st').
Proof.
  induction overlays as [|o rest IH]; intros st st' H; simpl in H.
  - injection H as <-. exists []. rewrite app_nil_r. split; [done|constructor].
  - apply bind_inr in H as (st1 & Hb & Hr).
    apply IH in Hr as (stages & Hlist & Hidx).
    apply loop_body_iteration in Hb. destruct Hb; simpl in *.
    + by exists stages.
    + eexists (_ :: stages). rewrite Hlist, <- app_assoc. split; [done|].
      by constructor.
    + eexists (_ :: stages). rewrite Hlist, <- app_assoc. split; [done|].
      by constructor.
Qed.


Lemma scale_stream_of_inj (n m : nat) : scale_stream_of n = scale_stream_of m → n = m.
Proof.
  unfold scale_stream_of. rewrite !app_cons, !app_empty_l.
  intros [= H]. apply app_inj_r in H. by apply (inj pretty) in H.
Qed.

(** X6.  The labels the loop makes up never collide: [[vn]] and
    [[img_scaledn]] are different for different counts, differ from one
    another and from the primary stream [[0:v]]. *)
Theorem stream_labels_distinct (n m : nat) :
  (new_stream_of n = new_stream_of m → n = m) ∧
  (scale_stream_of n = scale_stream_of m → n = m) ∧
  new_stream_of n ≠ scale_stream_of m ∧
  new_stream_of n ≠ "[0:v]" ∧
  scale_stream_of n ≠ "[0:v]".
Proof.
  split; [apply new_stream_of_inj|]. split; [apply scale_stream_of_inj|].
  unfold new_stream_of, scale_stream_of. rewrite !app_cons. repeat split; discriminate.
Qed.

End LoopAccounting.

(** ** More about the background task *)

Section TaskFrame.

Variable repr_container : json → string.
Variable cwd : string.
Variable json_loads : string → option json.
Variable subprocess_run : list string → gset string → proc_outcome * gset string.

Local Abbreviation build := (build_command repr_container cwd json_loads).
Local Abbreviation task := (render_video_task repr_container cwd json_loads subprocess_run).
Local Abbreviation storage :=
  (storage_after_try repr_container cwd json_loads subprocess_run).
Local Abbreviation ok := (encoded_ok repr_container cwd json_loads subprocess_run).

(** X7.  The task touches one job record only and only two of its
    fields: every other record is as before, no record is added or
    dropped, the record's [video_path] and [metadata] stay, and nothing
    is scheduled. *)
Theorem task_touches_one_job w job_id video_path metadata_str :
  (∀ other, other ≠ job_id →
     job_status (task job_id video_path metadata_str w).1 !! other = job_status w !! other) ∧
  dom (job_status (task job_id video_path metadata_str w).1) = dom (job_status w) ∧
  Job.video_path <$> job_status (task job_id video_path metadata_str w).1 !! job_id
    = Job.video_path <$> job_status w !! job_id ∧
  Job.metadata <$> job_status (task job_id video_path metadata_str w).1 !! job_id
    = Job.metadata <$> job_status w !! job_id ∧
  background_tasks (task job_id video_path metadata_str w).1 = background_tasks w.
Proof.
  destruct (job_status w !! job_id) as [j0|] eqn:Hj.
  - rewrite (task_outcome _ _ _ _ _ _ _ _ _ Hj). unfold settled. cbn [fst job_status background_tasks].
    repeat split.
    + intros other Hne. by rewrite lookup_insert_ne.
    + apply dom_insert_lookup_L. by rewrite Hj.
    + rewrite lookup_insert_eq. by destruct (encoded_ok _ _ _ _ _ _ _ _).
    + rewrite lookup_insert_eq. by destruct (encoded_ok _ _ _ _ _ _ _ _).
  - rewrite (task_outcome_absent _ _ _ _ _ _ _ _ Hj). cbn [fst job_status background_tasks].
    by rewrite Hj.
Qed.

(** X8.  The only file the task itself removes is the input, at most
    once; every other path is on storage afterwards exactly when it was
    there once the encoder was done (or, the encoder not reached, at the
    start). *)
Theorem task_removes_only_input w job_id video_path metadata_str :
  (removed (task job_id video_path metadata_str w).1 = removed w ∨
   removed (task job_id video_path metadata_str w).1 = video_path :: removed w) ∧
  (∀ p, p ≠ video_path →
     p ∈ files (task job_id video_path metadata_str w).1 ↔
     p ∈ (if bool_decide (is_Some (job_status w !! job_id))
          then storage w job_id video_path metadata_str else files w)).
Proof.
  destruct (job_status w !! job_id) as [j0|] eqn:Hj.
  - rewrite (task_outcome _ _ _ _ _ _ _ _ _ Hj). unfold settled. cbn [fst removed files].
    split.
    + case_bool_decide; [by right|by left].
    + intros p Hp. rewrite bool_decide_eq_true_2 by eauto.
      rewrite elem_of_difference, elem_of_singleton. tauto.
  - rewrite (task_outcome_absent _ _ _ _ _ _ _ _ Hj). cbn [fst removed files].
    split.
    + case_bool_decide; [by right|by left].
    + intros p Hp. rewrite bool_decide_eq_false_2 by (by intros [? ?]).
      rewrite elem_of_difference, elem_of_singleton. tauto.
Qed.

End TaskFrame.

Section MetadataFacts.

Variable repr_container : json → string.
Variable cwd : string.
Variable json_loads : string → option json.

Local Abbreviation build := (build_command repr_container cwd json_loads).
Local Abbreviation task := (render_video_task repr_container cwd json_loads).

(** X9.  When building the command raises, the encoder is never
    started: the task ends the same whatever [subprocess.run] would have
    done, the job (if in the map) is [FAILED] with its [result_path]
    untouched, and storage only loses the input. *)
Theorem build_error_skips_encoder w job_id video_path metadata_str e :
  build (files w) job_id video_path metadata_str = inl e →
  (∀ run1 run2,
     task run1 job_id video_path metadata_str w = task run2 job_id video_path metadata_str w) ∧
  (∀ run j0, job_status w !! job_id = Some j0 →
     job_status (task run job_id video_path metadata_str w).1 !! job_id
     = Some (Job.Make FAILED (Job.video_path j0) (Job.metadata j0) (Job.result_path j0))) ∧
  (∀ run, files (task run job_id video_path metadata_str w).1 = files w ∖ {[video_path]}).
Proof.
  intros Hb.
  assert (Hall : ∀ run,
    task run job_id video_path metadata_str w =
    match job_status w !! job_id with
    | Some j0 =>
        (World (<[job_id := Job.Make FAILED (Job.video_path j0) (Job.metadata j0)
                              (Job.result_path j0)]> (job_status w))
               (files w ∖ {[video_path]}) (background_tasks w)
               ((if bool_decide (video_path ∈ files w) then [video_path] else [])
                ++ removed w), inr tt)
    | None =>
        (World (job_status w) (files w ∖ {[video_path]}) (background_tasks w)
               ((if bool_decide (video_path ∈ files w) then [video_path] else [])
                ++ removed w), inl KeyError)
    end).
  { intros run. destruct (job_status w !! job_id) as [j0|] eqn:Hj.
    - rewrite (task_outcome _ _ _ _ _ _ _ _ _ Hj).
      unfold settled, storage_after_try, encoded_ok. by rewrite Hb.
    - by rewrite (task_outcome_absent _ _ _ _ _ _ _ _ Hj). }
  repeat split.
  - intros run1 run2. by rewrite !Hall.
  - intros run j0 Hj. rewrite Hall, Hj. cbn [fst job_status]. by rewrite lookup_insert_eq.
  - intros run. rewrite Hall. by destruct (job_status w !! job_id).
Qed.

Lemma build_command_bad_metadata fs job_id video_path metadata_str :
  match json_loads metadata_str with
  | None => build fs job_id video_path metadata_str = inl JSONDecodeError
  | Some (JDict _) => True
  | Some _ => build fs job_id video_path metadata_str = inl AttributeError
  end.
Proof.
  unfold build_command. destruct (json_loads metadata_str) as [[]|]; done.
Qed.

(** X10.  Metadata that is not JSON, or JSON that is not an object (a
    list, a number, a string, null), makes the job [FAILED]: the first
    raises [JSONDecodeError], the second [AttributeError], both before
    any overlay is looked at. *)
Theorem bad_metadata_fails_job run w job_id video_path metadata_str j0 :
  job_status w !! job_id = Some j0 →
  (json_loads metadata_str = None ∨
   ∃ v, json_loads metadata_str = Some v ∧ ∀ d, v ≠ JDict d) →
  (build (files w) job_id video_path metadata_str = inl JSONDecodeError ∨
   build (files w) job_id video_path metadata_str = inl AttributeError) ∧
  Job.status <$> job_status (task run job_id video_path metadata_str w).1 !! job_id
    = Some FAILED.
Proof.
  intros Hj Hbad.
  assert (Hb : build (files w) job_id video_path metadata_str = inl JSONDecodeError ∨
               build (files w) job_id video_path metadata_str = inl AttributeError).
  { pose proof (build_command_bad_metadata (files w) job_id video_path metadata_str) as H.
    destruct Hbad as [Hn|(v & Hv & Hd)].
    - rewrite Hn in H. by left.
    - rewrite Hv in H. destruct v; try by right. by destruct (Hd d). }
  split; [done|].
  rewrite (task_job_record _ _ _ _ _ _ _ _ _ Hj).
  unfold encoded_ok. by destruct Hb as [-> | ->].
Qed.

(** X11.  A metadata object without the key [overlays] is rendered like
    one with an empty overlay list: the command built has the primary
    input only, an empty filter graph argument and maps [[0:v]]. *)
Theorem overlays_key_defaults_to_empty fs job_id video_path metadata_str d :
  json_loads metadata_str = Some (JDict d) →
  d !! "overlays" = None →
  build fs job_id video_path metadata_str =
  inr (["ffmpeg"; "-y"; "-i"; video_path;
        "-filter_complex"; "";
        "-map"; "[0:v]"; "-map"; "0:a?";
        "-c:v"; "libx264"; "-crf"; "23"; "-preset"; "veryfast";
        "-c:a"; "aac"; "-b:a"; "192k"; output_path_of job_id],
       output_path_of job_id).
Proof.
  intros Hl Hd. unfold build_command. rewrite Hl. simpl. by rewrite Hd.
Qed.

(** X12.  An [overlays] value that is not a list: null, a boolean or a
    number cannot be iterated and raises [TypeError]; a string or an
    object is iterated over its characters or keys, so an empty one is
    taken for an empty overlay list and any other raises [TypeError] at
    the first of them. *)
Theorem overlays_not_a_list fs job_id video_path metadata_str d v :
  json_loads metadata_str = Some (JDict d) →
  d !! "overlays" = Some v →
  (∀ l, v ≠ JList l) →
  build fs job_id video_path metadata_str =
  if match v with
     | JStr s => String.eqb s ""
     | JDict keys => bool_decide (keys = ∅)
     | _ => false
     end
  then inr (command_of (init_state video_path) (output_path_of job_id), output_path_of job_id)
  else inl TypeError.
Proof.
  intros Hl Hd Hv. unfold build_command. rewrite Hl. simpl. rewrite Hd. simpl.
  destruct v as [| | | |s|l|keys]; try done.
  - destruct s as [|c s]; done.
  - by destruct (Hv l).
  - simpl. case_bool_decide as Hk.
    + subst keys. by rewrite map_to_list_empty.
    + destruct (map_to_list keys) as [|[k x] rest] eqn:Hm.
      * by apply map_to_list_empty_iff in Hm.
      * done.
Qed.

End MetadataFacts.

(** ** The endpoints around a rendering *)

Lemma app_nonempty_r (s t : string) : t ≠ "" → s +:+ t ≠ "".
Proof. destruct s; [done|]. by rewrite app_cons. Qed.

Lemma output_path_of_nonempty job_id : String.eqb (output_path_of job_id) "" = false.
Proof.
  apply String.eqb_neq. unfold output_path_of, path_join.
  destruct (starts_with_sep (job_id +:+ "_final.mp4")).
  - by apply app_nonempty_r.
  - done.
Qed.

Lemma temp_is_output_for_final job_id :
  temp_video_path_of job_id "final.mp4" = output_path_of job_id.
Proof. reflexivity. Qed.

Lemma basename_no_sep (p : string) : no_sep p = true → basename p = p.
Proof.
  destruct p as [|c rest]; simpl; [done|].
  intros [Hc Hr]%andb_prop. rewrite Hr. simpl.
  apply negb_true_iff in Hc. by rewrite Hc.
Qed.

Lemma no_sep_app_inv (s t : string) : no_sep (s +:+ t) = true → no_sep t = true.
Proof.
  induction s as [|c s IH]; [done|]. rewrite app_cons. simpl.
  intros [_ H]%andb_prop. by apply IH.
Qed.

Lemma basename_app_sep (a b : string) :
  no_sep b = true → basename (a +:+ String "/" b) = b.
Proof.
  intros Hb. induction a as [|c a IH].
  - rewrite app_empty_l. simpl. by rewrite Hb.
  - rewrite app_cons. simpl.
    destruct (no_sep (a +:+ String "/" b)) eqn:E; [|done].
    apply no_sep_app_inv in E. simpl in E. done.
Qed.

Lemma ends_with_sep_app (a : string) : ends_with_sep a = true → ∃ a', a = a' +:+ "/".
Proof.
  induction a as [|c a IH]; [done|]. destruct a as [|c' a].
  - simpl. intros ->%Ascii.eqb_eq. by exists "".
  - intros H. destruct (IH H) as [a' Ha']. exists (String c a').
    by rewrite app_cons, <- Ha'.
Qed.

(** [os.path.basename] undoes [os.path.join] on a last component
    without a slash. *)
Lemma basename_path_join (a b : string) :
  no_sep b = true → basename (path_join a b) = b.
Proof.
  intros Hb. unfold path_join.
  destruct (starts_with_sep b) eqn:Es.
  { destruct b as [|c b]; [done|]. simpl in *. by rewrite Es in Hb. }
  destruct (String.eqb a "") eqn:Ea; simpl.
  { apply String.eqb_eq in Ea as ->. by apply basename_no_sep. }
  destruct (ends_with_sep a) eqn:Ee.
  - destruct (ends_with_sep_app _ Ee) as [a' ->].
    rewrite app_assoc_str. by apply basename_app_sep.
  - by apply basename_app_sep.
Qed.

(** X13.  For a job id without a slash, the name [/result] offers the
    rendered file under (the base name of the output path) is
    [<job_id>_final.mp4], whatever the uploaded file was called. *)
Theorem download_name (job_id : string) :
  no_sep job_id = true →
  basename (output_path_of job_id) = job_id +:+ "_final.mp4".
Proof.
  intros Hid. unfold output_path_of. apply basename_path_join.
  by apply no_sep_app.
Qed.

Section Endpoints.

Variable repr_container : json → string.
Variable cwd : string.
Variable json_loads : string → option json.
Variable subprocess_run : list string → gset string → proc_outcome * gset string.

Local Abbreviation task := (render_video_task repr_container cwd json_loads subprocess_run).
Local Abbreviation storage :=
  (storage_after_try repr_container cwd json_loads subprocess_run).
Local Abbreviation ok := (encoded_ok repr_container cwd json_loads subprocess_run).
Local Abbreviation served :=
  (upload_then_render repr_container cwd json_loads subprocess_run).

Lemma get_result_settled w job_id video_path metadata_str j0 :
  job_status w !! job_id = Some j0 →
  get_result job_id (task job_id video_path metadata_str w).1 =
  if ok w job_id video_path metadata_str then
    if bool_decide (output_path_of job_id ∈ storage w job_id video_path metadata_str
                                             ∖ {[video_path]})
    then inr (FileResponse (output_path_of job_id) "video/mp4"
                (basename (output_path_of job_id)))
    else inl (HTTPException 500 "Rendered file missing.")
  else inl (HTTPException 409 "Video processing not ready. Status: FAILED").
Proof.
  intros Hj. rewrite (task_outcome _ _ _ _ _ _ _ _ _ Hj).
  unfold get_result, settled. cbn [fst job_status files].
  rewrite lookup_insert_eq.
  destruct (encoded_ok _ _ _ _ _ _ _ _); cbn [Job.status Job.result_path].
  - rewrite bool_decide_eq_true_2 by done. cbn [negb].
    rewrite output_path_of_nonempty. cbn [orb].
    by case_bool_decide.
  - by rewrite bool_decide_eq_false_2.
Qed.

(** X14.  What [/result] answers once the task has run on a job of the
    map: the output file, offered as [video/mp4] under its base name,
    when the command was built, [subprocess.run] returned with exit
    code 0 (the encoder exited with 0 and its captured output was
    decoded) and the output path is on storage after the clean-up; 500
    when [subprocess.run] returned so and the path is not on storage;
    and 409 naming the status [FAILED] otherwise. *)
Theorem get_result_after_task w job_id video_path metadata_str j0 :
  job_status w !! job_id = Some j0 →
  get_result job_id (task job_id video_path metadata_str w).1 =
  if ok w job_id video_path metadata_str then
    if bool_decide (output_path_of job_id ∈ storage w job_id video_path metadata_str
                                             ∖ {[video_path]})
    then inr (FileResponse (output_path_of job_id) "video/mp4"
                (basename (output_path_of job_id)))
    else inl (HTTPException 500 "Rendered file missing.")
  else inl (HTTPException 409 "Video processing not ready. Status: FAILED").
Proof. apply get_result_settled. Qed.

(** X15.  Once the task has run on a job of the map, [/status] answers
    [COMPLETE] or [FAILED], never [PENDING] or [PROCESSING], whatever
    the status was before: [COMPLETE] when the command was built and
    [subprocess.run] returned with exit code 0 (the encoder exited with
    0 and its captured output was decoded), [FAILED] otherwise. *)
Theorem get_status_after_task w job_id video_path metadata_str j0 :
  job_status w !! job_id = Some j0 →
  get_status job_id (task job_id video_path metadata_str w).1 =
  inr (job_id, if ok w job_id video_path metadata_str then COMPLETE else FAILED).
Proof.
  intros Hj. unfold get_status. rewrite (task_job_record _ _ _ _ _ _ _ _ _ Hj).
  by destruct (encoded_ok _ _ _ _ _ _ _ _).
Qed.

(** X16.  Right after an upload that was written, [/status] answers
    [PENDING] and [/result] answers 409 naming that status, also when
    the id was that of an earlier job. *)
Theorem fresh_upload_is_pending w job_id filename metadata :
  get_status job_id (upload_video job_id filename metadata true w).1
    = inr (job_id, PENDING) ∧
  get_result job_id (upload_video job_id filename metadata true w).1
    = inl (HTTPException 409 "Video processing not ready. Status: PENDING").
Proof.
  unfold get_status, get_result, upload_video. cbn [negb fst job_status].
  by rewrite lookup_insert_eq.
Qed.

(** X17.  An upload followed by the task it scheduled: the task does
    not raise, the job ends [COMPLETE] or [FAILED] with the temporary
    path and the metadata text of the upload in its record, the
    uploaded file is gone from storage, and jobs of other ids are as
    before the upload. *)
Theorem upload_then_render_settles w job_id filename metadata :
  (served job_id filename metadata w).2 = inr tt ∧
  (∃ status result_path,
     job_status (served job_id filename metadata w).1 !! job_id
       = Some (Job.Make status (temp_video_path_of job_id filename) metadata result_path) ∧
     (status = COMPLETE ∨ status = FAILED)) ∧
  (temp_video_path_of job_id filename ∉ files (served job_id filename metadata w).1) ∧
  (∀ other, other ≠ job_id →
     job_status (served job_id filename metadata w).1 !! other = job_status w !! other).
Proof.
  unfold upload_then_render, run_task, upload_video.
  cbn [negb fst task_job_id task_video_path task_metadata].
  match goal with |- context [render_video_task _ _ _ _ _ _ _ ?w1] => set (w1' := w1) end.
  assert (Hj : job_status w1' !! job_id
               = Some (Job.Make PENDING (temp_video_path_of job_id filename) metadata None))
    by apply lookup_insert_eq.
  rewrite (task_outcome _ _ _ _ _ _ _ _ _ Hj). unfold settled.
  cbn [fst snd job_status files]. repeat split.
  - rewrite lookup_insert_eq.
    destruct (encoded_ok _ _ _ _ _ _ _ _); eexists _, _; cbn; eauto.
  - rewrite elem_of_difference, elem_of_singleton. tauto.
  - intros other Hne. subst w1'. cbn [job_status].
    by rewrite !lookup_insert_ne.
Qed.

(** X18.  A file uploaded under the name [final.mp4] gets the output
    path as its temporary path, so the clean-up removes what the
    encoder wrote: whatever the encoder does, [/result] never serves
    that job; it answers 500 [Rendered file missing.] when the command
    was built and [subprocess.run] returned with exit code 0, and 409
    naming the status [FAILED] otherwise. *)
Theorem final_mp4_result_is_lost w job_id metadata :
  temp_video_path_of job_id "final.mp4" = output_path_of job_id ∧
  get_result job_id (served job_id "final.mp4" metadata w).1 =
    if encoded_ok repr_container cwd json_loads subprocess_run
         (upload_video job_id "final.mp4" metadata true w).1
         job_id (output_path_of job_id) metadata
    then inl (HTTPException 500 "Rendered file missing.")
    else inl (HTTPException 409 "Video processing not ready. Status: FAILED").
Proof.
  split; [reflexivity|].
  unfold upload_then_render, run_task, upload_video.
  cbn [negb fst task_job_id task_video_path task_metadata].
  match goal with |- context [render_video_task _ _ _ _ _ _ _ ?w1] => set (w1' := w1) end.
  assert (Hj : job_status w1' !! job_id
               = Some (Job.Make PENDING (temp_video_path_of job_id "final.mp4") metadata None))
    by apply lookup_insert_eq.
  rewrite (get_result_settled _ _ _ _ _ Hj). rewrite temp_is_output_for_final.
  destruct (encoded_ok _ _ _ _ _ _ _ _); [|done].
  rewrite bool_decide_eq_false_2; [done|].
  rewrite elem_of_difference, elem_of_singleton. tauto.
Qed.

End Endpoints.

(** X19.  A file [/result] serves is on storage and is the
    [result_path] of a job that is [COMPLETE]; the name it is offered
    under is the base name of that path. *)
Theorem served_file_exists w job_id r :
  get_result job_id w = inr r →
  response_path r ∈ files w ∧
  response_path r ≠ "" ∧
  response_media_type r = "video/mp4" ∧
  response_filename r = basename (response_path r) ∧
  ∃ j, job_status w !! job_id = Some j ∧
       Job.status j = COMPLETE ∧ Job.result_path j = Some (response_path r).
Proof.
  unfold get_result. destruct (job_status w !! job_id) as [j|]; [|done].
  case_bool_decide as Hs; [|done]. cbn [negb].
  destruct (Job.result_path j) as [p|] eqn:Hp; [|done].
  destruct (String.eqb p "") eqn:En; [done|]. cbn [orb].
  case_bool_decide as Hin; [|done]. cbn [negb]. intros [= <-]. cbn.
  apply String.eqb_neq in En. repeat split; eauto.
Qed.

(** ** More about escaping and paths *)

Lemma escape_quotes_length_aux (s : string) :
  String.length (escape_quotes s) = String.length s + count_quotes s.
Proof.
  induction s as [|c s IH]; simpl; [done|].
  destruct (Ascii.eqb c "'"); simpl; rewrite IH; lia.
Qed.

(** X20.  Escaping lengthens a text by one character per single quote
    and by nothing else. *)
Theorem escape_quotes_length (s : string) :
  String.length (escape_quotes s) = String.length s + count_quotes s.
Proof. apply escape_quotes_length_aux. Qed.

Lemma quotes_follow_backslash_escape (s : string) (b : bool) :
  quotes_follow_backslash b (escape_quotes s) = true.
Proof.
  revert b. induction s as [|c s IH]; intros b; simpl; [done|].
  destruct (Ascii.eqb c "'") eqn:Eq.
  - simpl. by rewrite IH.
  - simpl. rewrite Eq, IH. done.
Qed.

(** X21.  In an escaped text every single quote stands right after a
    backslash, whatever the content was; and escaping goes through a
    concatenation piece by piece. *)
Theorem escaped_quotes_follow_backslash (s t : string) :
  quotes_follow_backslash false (escape_quotes s) = true ∧
  escape_quotes (s +:+ t) = escape_quotes s +:+ escape_quotes t.
Proof.
  split; [apply quotes_follow_backslash_escape|].
  induction s as [|c s IH]; [done|]. rewrite app_cons. simpl.
  destruct (Ascii.eqb c "'"); rewrite ?app_cons; by rewrite IH.
Qed.

(** X22.  Escaping leaves a text as it is exactly when the text has no
    single quote. *)
Theorem escape_quotes_fixed_iff (s : string) :
  escape_quotes s = s ↔ count_quotes s = 0.
Proof.
  split.
  - intros H. apply (f_equal String.length) in H.
    rewrite escape_quotes_length_aux in H. lia.
  - induction s as [|c s IH]; simpl; [done|].
    destruct (Ascii.eqb c "'"); [done|]. intros H. f_equal. by apply IH.
Qed.

Lemma underscore_inside_not_dots (a b : string) :
  String.eqb (a +:+ "_" +:+ b) "" = false ∧
  String.eqb (a +:+ "_" +:+ b) "." = false ∧
  String.eqb (a +:+ "_" +:+ b) ".." = false.
Proof.
  repeat split; apply String.eqb_neq; destruct a as [|c1 [|c2 [|c3 a]]];
    rewrite ?app_cons, ?app_empty_l; discriminate.
Qed.

Lemma components_no_sep (s : string) : no_sep s = true → components s = [s].
Proof.
  induction s as [|c s IH]; simpl; [done|].
  intros [Hc Hs]%andb_prop. apply negb_true_iff in Hc. by rewrite Hc, (IH Hs).
Qed.

Lemma joined_inside_storage (job_id name : string) :
  no_sep job_id = true → no_sep name = true →
  resolved (STORAGE_DIR +:+ "/" +:+ job_id +:+ "_" +:+ name)
    = ["rendered_videos"; job_id +:+ "_" +:+ name] ∧
  inside_storage (STORAGE_DIR +:+ "/" +:+ job_id +:+ "_" +:+ name) = true.
Proof.
  intros Hid Hname.
  assert (Hlast : no_sep (job_id +:+ "_" +:+ name) = true)
    by (apply no_sep_app; [done|by apply no_sep_app]).
  assert (Hres : resolved (STORAGE_DIR +:+ "/" +:+ job_id +:+ "_" +:+ name)
                 = ["rendered_videos"; job_id +:+ "_" +:+ name]).
  { unfold resolved.
    change (STORAGE_DIR +:+ "/" +:+ job_id +:+ "_" +:+ name)
      with ("rendered_videos" +:+ String "/" (job_id +:+ "_" +:+ name)).
    rewrite components_app_sep by done. rewrite components_no_sep by done.
    destruct (underscore_inside_not_dots job_id name) as (He & Hd & Hdd).
    by rewrite !normalize_push by done. }
  split; [done|]. unfold inside_storage. by rewrite Hres.
Qed.

(** X23.  With a job id and a file name free of slashes the temporary
    input path resolves to a file directly below the storage directory;
    so does the output path, whose last component the code fixes. *)
Theorem plain_names_stay_in_storage (job_id filename : string) :
  no_sep job_id = true → no_sep filename = true →
  resolved (temp_video_path_of job_id filename)
    = ["rendered_videos"; job_id +:+ "_" +:+ filename] ∧
  inside_storage (temp_video_path_of job_id filename) = true ∧
  resolved (output_path_of job_id) = ["rendered_videos"; job_id +:+ "_final.mp4"] ∧
  inside_storage (output_path_of job_id) = true.
Proof.
  intros Hid Hname.
  rewrite (temp_video_path_of_eq job_id filename) by by apply no_sep_starts.
  rewrite (output_path_of_eq job_id) by by apply no_sep_starts.
  destruct (joined_inside_storage job_id filename Hid Hname) as [H1 H2].
  destruct (joined_inside_storage job_id "final.mp4" Hid eq_refl) as [H3 H4].
  auto.
Qed.

(** ** The upload on a file system *)

Lemma first_sep (s : string) :
  no_sep s = false → ∃ pre post, s = pre +:+ String "/" post ∧ no_sep pre = true.
Proof.
  induction s as [|c s IH]; simpl; [done|].
  destruct (Ascii.eqb c "/") eqn:Hc; simpl.
  - intros _. apply Ascii.eqb_eq in Hc as ->. by exists "", s.
  - intros (pre & post & -> & Hpre)%IH. exists (String c pre), post.
    rewrite app_cons. simpl. by rewrite Hc.
Qed.

Lemma components_cons (s : string) : ∃ first others, components s = first :: others.
Proof.
  induction s as [|c s (first & others & IH)]; simpl; [eauto|].
  destruct (Ascii.eqb c "/"); [eauto|]. rewrite IH. eauto.
Qed.

Lemma enter_name dirs at_dir a b :
  enter dirs at_dir (a +:+ "_" +:+ b) =
  if bool_decide (at_dir ++ [a +:+ "_" +:+ b] ∈ dirs)
  then Some (at_dir ++ [a +:+ "_" +:+ b]) else None.
Proof.
  unfold enter. destruct (underscore_inside_not_dots a b) as (-> & -> & ->). done.
Qed.

(** What [open] makes of the temporary path: a file directly in the
    storage directory, for a file name without a slash and an existing
    storage directory; an exception otherwise. *)
Lemma open_wb_temp dirs cwd_dir job_id filename :
  no_sep job_id = true →
  flat_storage dirs cwd_dir →
  open_wb dirs cwd_dir (temp_video_path_of job_id filename) =
  if no_sep filename && bool_decide (cwd_dir ++ [STORAGE_DIR] ∈ dirs)
  then Some (cwd_dir ++ [STORAGE_DIR; job_id +:+ "_" +:+ filename])
  else None.
Proof.
  intros Hid Hflat.
  rewrite (temp_video_path_of_eq job_id filename) by by apply no_sep_starts.
  unfold open_wb.
  change (STORAGE_DIR +:+ "/" +:+ job_id +:+ "_" +:+ filename)
    with ("rendered_videos" +:+ String "/" (job_id +:+ "_" +:+ filename)).
  rewrite components_app_sep by done.
  change (starts_with_sep ("rendered_videos" +:+ String "/" (job_id +:+ "_" +:+ filename)))
    with false.
  cbv iota.
  assert (Hstorage : enter dirs cwd_dir "rendered_videos" =
                     if bool_decide (cwd_dir ++ [STORAGE_DIR] ∈ dirs)
                     then Some (cwd_dir ++ [STORAGE_DIR]) else None) by done.
  assert (Hin : ∀ name, bool_decide ((cwd_dir ++ [STORAGE_DIR]) ++ [name] ∈ dirs) = false).
  { intros name. apply bool_decide_eq_false_2. rewrite <- app_assoc. apply Hflat. }
  destruct (no_sep filename) eqn:Hname.
  - rewrite components_no_sep by (apply no_sep_app; [done|by apply no_sep_app]).
    cbn [walk andb]. rewrite Hstorage.
    destruct (bool_decide (cwd_dir ++ [STORAGE_DIR] ∈ dirs)); [|done].
    destruct (underscore_inside_not_dots job_id filename) as (-> & -> & ->).
    rewrite Hin. cbn [orb]. by rewrite <- app_assoc.
  - cbn [andb]. apply first_sep in Hname as (pre & post & -> & Hpre).
    replace (job_id +:+ "_" +:+ pre +:+ String "/" post)
      with ((job_id +:+ "_" +:+ pre) +:+ String "/" post)
      by (by rewrite !app_assoc_str).
    rewrite components_app_sep by (apply no_sep_app; [done|by apply no_sep_app]).
    destruct (components_cons post) as (first & others & ->).
    cbn [walk]. rewrite Hstorage.
    destruct (bool_decide (cwd_dir ++ [STORAGE_DIR] ∈ dirs)); [|done].
    by rewrite enter_name, Hin.
Qed.




(** X24.  Every command that gets built starts with [ffmpeg -y -i] and
    the input path and ends with the output path, and the output path
    handed back is the one of the job id. *)
Theorem command_ends fs repr_container cwd json_loads job_id video_path metadata_str
    command output_path :
  build_command repr_container cwd json_loads fs job_id video_path metadata_str
    = inr (command, output_path) →
  take 4 command = ["ffmpeg"; "-y"; "-i"; video_path] ∧
  last command = Some output_path ∧
  output_path = output_path_of job_id.
Proof.
  intros Hb. unfold build_command in Hb.
  apply bind_inr in Hb as (metadata & _ & Hb).
  apply bind_inr in Hb as (overlays & _ & Hb).
  apply bind_inr in Hb as (items & _ & Hb).
  apply bind_inr in Hb as (st & Hloop & Hb).
  injection Hb as <- <-.
  apply run_loop_inputs in Hloop as (k & _ & Hin). simpl in Hin.
  unfold command_of. rewrite Hin. repeat split.
  match goal with |- last (?a ++ ?b) = _ =>
    change b with (take 16 b ++ [output_path_of job_id]) end.
  by rewrite app_assoc, last_snoc.
Qed.

(** ** Further concrete runs *)

Lemma loop_accounting_witness :
  ∃ st,
    run_loop Demo.no_repr Demo.cwd {[Demo.logo]} (init_state Demo.clip)
      [Demo.text_hi; Demo.sticker; Demo.image_2_4] = inr st ∧
    filter_count st = 3 ∧
    length (filter_complex_list st) = 2 ∧
    asset_input_index st = 2 ∧
    input_files st = ["ffmpeg"; "-y"; "-i"; Demo.clip; "-i"; "/app/assets/logo.png"].
Proof.
  assert (Hrun : ∃ st,
    run_loop Demo.no_repr Demo.cwd {[Demo.logo]} (init_state Demo.clip)
      [Demo.text_hi; Demo.sticker; Demo.image_2_4] = inr st).
  { eexists. vm_compute. reflexivity. }
  destruct Hrun as [st Hrun].
  destruct (loop_accounting Demo.no_repr Demo.cwd _ _ _ _ Hrun) as (H1 & H2 & H3 & H4).
  exists st. auto.
Defined.


Lemma build_error_skips_encoder_witness :
  build_command Demo.no_repr Demo.cwd MoreDemo.loads
    (files (Demo.uploaded MoreDemo.doc_no_times)) Demo.job_id Demo.clip MoreDemo.doc_no_times
    = inl KeyError ∧
  render_video_task Demo.no_repr Demo.cwd MoreDemo.loads Demo.encoder_ok
    Demo.job_id Demo.clip MoreDemo.doc_no_times (Demo.uploaded MoreDemo.doc_no_times)
  = render_video_task Demo.no_repr Demo.cwd MoreDemo.loads Demo.encoder_fails
      Demo.job_id Demo.clip MoreDemo.doc_no_times (Demo.uploaded MoreDemo.doc_no_times).
Proof.
  assert (Hb : build_command Demo.no_repr Demo.cwd MoreDemo.loads
                 (files (Demo.uploaded MoreDemo.doc_no_times)) Demo.job_id Demo.clip
                 MoreDemo.doc_no_times = inl KeyError)
    by (vm_compute; reflexivity).
  split; [exact Hb|].
  destruct (build_error_skips_encoder Demo.no_repr Demo.cwd MoreDemo.loads _ _ _ _ _ Hb)
    as (Hsame & _ & _).
  apply Hsame.
Defined.

Lemma bad_metadata_fails_job_witness :
  job_status (Demo.uploaded MoreDemo.doc_list) !! Demo.job_id
    = Some (Job.Make PENDING Demo.clip MoreDemo.doc_list None) ∧
  MoreDemo.loads MoreDemo.doc_list = Some (JList []) ∧
  Job.status <$>
    job_status
      (render_video_task Demo.no_repr Demo.cwd MoreDemo.loads Demo.encoder_ok
         Demo.job_id Demo.clip MoreDemo.doc_list (Demo.uploaded MoreDemo.doc_list)).1
      !! Demo.job_id
  = Some FAILED.
Proof.
  assert (Hj : job_status (Demo.uploaded MoreDemo.doc_list) !! Demo.job_id
               = Some (Job.Make PENDING Demo.clip MoreDemo.doc_list None))
    by (vm_compute; reflexivity).
  assert (Hl : MoreDemo.loads MoreDemo.doc_list = Some (JList []))
    by (vm_compute; reflexivity).
  split; [exact Hj|]. split; [exact Hl|].
  refine (proj2 (bad_metadata_fails_job Demo.no_repr Demo.cwd MoreDemo.loads Demo.encoder_ok
                   _ _ Demo.clip _ _ Hj _)).
  right. exists (JList []). split; [exact Hl|]. intros d. discriminate.
Defined.

Lemma overlays_key_defaults_to_empty_witness :
  MoreDemo.loads MoreDemo.doc_no_key = Some (JDict ∅) ∧
  build_command Demo.no_repr Demo.cwd MoreDemo.loads ∅ Demo.job_id Demo.clip
    MoreDemo.doc_no_key
  = inr (["ffmpeg"; "-y"; "-i"; Demo.clip;
          "-filter_complex"; "";
          "-map"; "[0:v]"; "-map"; "0:a?";
          "-c:v"; "libx264"; "-crf"; "23"; "-preset"; "veryfast";
          "-c:a"; "aac"; "-b:a"; "192k"; output_path_of Demo.job_id],
         output_path_of Demo.job_id).
Proof.
  assert (Hl : MoreDemo.loads MoreDemo.doc_no_key = Some (JDict ∅))
    by (vm_compute; reflexivity).
  split; [exact Hl|].
  exact (overlays_key_defaults_to_empty Demo.no_repr Demo.cwd MoreDemo.loads ∅
           Demo.job_id Demo.clip MoreDemo.doc_no_key ∅ Hl eq_refl).
Defined.

Lemma overlays_not_a_list_witness :
  MoreDemo.loads MoreDemo.doc_overlays_text = Some (JDict {[ "overlays" := JStr "abc" ]}) ∧
  build_command Demo.no_repr Demo.cwd MoreDemo.loads ∅ Demo.job_id Demo.clip
    MoreDemo.doc_overlays_text = inl TypeError.
Proof.
  assert (Hl : MoreDemo.loads MoreDemo.doc_overlays_text
               = Some (JDict {[ "overlays" := JStr "abc" ]}))
    by (vm_compute; reflexivity).
  split; [exact Hl|].
  assert (Hd : ({[ "overlays" := JStr "abc" ]} : gmap string json) !! "overlays"
               = Some (JStr "abc")) by (vm_compute; reflexivity).
  assert (Hv : ∀ l, JStr "abc" ≠ JList l) by (intros l; discriminate).
  exact (overlays_not_a_list Demo.no_repr Demo.cwd MoreDemo.loads ∅
           Demo.job_id Demo.clip MoreDemo.doc_overlays_text _ _ Hl Hd Hv).
Defined.

Lemma download_name_witness :
  no_sep Demo.job_id = true ∧
  basename (output_path_of Demo.job_id) = "0b0e7a52-7c1f-4c8e-9a55-3d2f6f1c9b10_final.mp4".
Proof.
  assert (Hid : no_sep Demo.job_id = true) by reflexivity.
  split; [exact Hid|]. exact (download_name Demo.job_id Hid).
Defined.

Lemma get_result_after_task_witness :
  job_status (MoreDemo.uploaded_with_logo Demo.doc_text_image) !! Demo.job_id
    = Some (Job.Make PENDING Demo.clip Demo.doc_text_image None) ∧
  get_result Demo.job_id
    (render_video_task Demo.no_repr Demo.cwd Demo.loads Demo.encoder_ok
       Demo.job_id Demo.clip Demo.doc_text_image
       (MoreDemo.uploaded_with_logo Demo.doc_text_image)).1
  = inr (FileResponse Demo.final "video/mp4"
           "0b0e7a52-7c1f-4c8e-9a55-3d2f6f1c9b10_final.mp4").
Proof.
  assert (Hj : job_status (MoreDemo.uploaded_with_logo Demo.doc_text_image) !! Demo.job_id
               = Some (Job.Make PENDING Demo.clip Demo.doc_text_image None))
    by (vm_compute; reflexivity).
  split; [exact Hj|].
  rewrite (get_result_after_task Demo.no_repr Demo.cwd Demo.loads Demo.encoder_ok
             _ _ Demo.clip Demo.doc_text_image _ Hj).
  vm_compute. reflexivity.
Defined.

Lemma get_status_after_task_witness :
  job_status (Demo.uploaded Demo.doc_text_image) !! Demo.job_id
    = Some (Job.Make PENDING Demo.clip Demo.doc_text_image None) ∧
  get_status Demo.job_id
    (render_video_task Demo.no_repr Demo.cwd Demo.loads Demo.encoder_fails
       Demo.job_id Demo.clip Demo.doc_text_image (Demo.uploaded Demo.doc_text_image)).1
  = inr (Demo.job_id, FAILED).
Proof.
  assert (Hj : job_status (Demo.uploaded Demo.doc_text_image) !! Demo.job_id
               = Some (Job.Make PENDING Demo.clip Demo.doc_text_image None))
    by (vm_compute; reflexivity).
  split; [exact Hj|].
  rewrite (get_status_after_task Demo.no_repr Demo.cwd Demo.loads Demo.encoder_fails
             _ _ Demo.clip Demo.doc_text_image _ Hj).
  vm_compute. reflexivity.
Defined.

Lemma served_file_exists_witness :
  let w :=
    (render_video_task Demo.no_repr Demo.cwd Demo.loads Demo.encoder_ok
       Demo.job_id Demo.clip Demo.doc_text_image (Demo.uploaded Demo.doc_text_image)).1 in
  get_result Demo.job_id w
    = inr (FileResponse Demo.final "video/mp4"
             "0b0e7a52-7c1f-4c8e-9a55-3d2f6f1c9b10_final.mp4") ∧
  Demo.final ∈ files w.
Proof.
  intros w.
  assert (Hr : get_result Demo.job_id w
               = inr (FileResponse Demo.final "video/mp4"
                        "0b0e7a52-7c1f-4c8e-9a55-3d2f6f1c9b10_final.mp4"))
    by (vm_compute; reflexivity).
  split; [exact Hr|].
  exact (proj1 (served_file_exists w Demo.job_id _ Hr)).
Defined.

Lemma plain_names_stay_in_storage_witness :
  no_sep Demo.job_id = true ∧ no_sep "clip.mp4" = true ∧
  inside_storage (temp_video_path_of Demo.job_id "clip.mp4") = true ∧
  inside_storage (output_path_of Demo.job_id) = true.
Proof.
  assert (Hid : no_sep Demo.job_id = true) by reflexivity.
  assert (Hname : no_sep "clip.mp4" = true) by reflexivity.
  split; [exact Hid|]. split; [exact Hname|].
  destruct (plain_names_stay_in_storage Demo.job_id "clip.mp4" Hid Hname)
    as (_ & H1 & _ & H2).
  split; [exact H1|exact H2].
Defined.

Lemma command_ends_witness :
  ∃ command,
    build_command Demo.no_repr Demo.cwd Demo.loads {[Demo.logo]} Demo.job_id Demo.clip
      Demo.doc_text_image = inr (command, Demo.final) ∧
    take 4 command = ["ffmpeg"; "-y"; "-i"; Demo.clip] ∧
    last command = Some Demo.final.
Proof.
  assert (Hb : ∃ command,
    build_command Demo.no_repr Demo.cwd Demo.loads {[Demo.logo]} Demo.job_id Demo.clip
      Demo.doc_text_image = inr (command, Demo.final)).
  { eexists. vm_compute. reflexivity. }
  destruct Hb as [command Hb].
  destruct (command_ends _ _ _ _ _ _ _ _ _ Hb) as (H1 & H2 & _).
  exists command. auto.
Defined.
